(** * tae.api: PCA, TICA and time-lagged autoencoder front end

    A shallow embedding of [time-lagged-autoencoder/tae/api.py] and of the
    collaborators it calls ([tae.utils], [tae.models], torch's [DataLoader]).

    - The three entry points [pca], [tica], [ae] and the helper [_transform]
      follow the Python source statement by statement; a raised exception is
      an [Err] of the [result] monad, in the order the source would raise it.
    - The floating point kernels (eigen-decomposition, gradient steps, the
      encoder) are the fields of a [Kernels] record: every statement below
      holds for all of them.
    - The random numbers the splitter draws are an explicit argument. *)

From Stdlib Require Import List ZArith QArith Qround Reals Psatz.
From Corelib Require PrimFloat.
From stdpp Require Import base list gmap strings.

Open Scope nat_scope.

(** ** Exceptions and the error monad *)

Inductive error : Type :=
  | ShapeMismatchError
  | InvalidFractionError
  | SingularCovarianceError
  | DimensionError
  | DegenerateColumnError
  | IndexError
  | TypeError.

Inductive result (A : Type) : Type :=
  | Ok (a : A)
  | Err (e : error).
Arguments Ok {A} a.
Arguments Err {A} e.

Definition bind {A B : Type} (r : result A) (k : A -> result B) : result B :=
  match r with
  | Ok a => k a
  | Err e => Err e
  end.

Notation "'do' x <- r ; k" := (bind r (fun x => k))
  (at level 10, x name, r at level 100, k at level 200).
Notation "'do' ' p <- r ; k" := (bind r (fun x => match x with p => k end))
  (at level 10, p pattern, r at level 100, k at level 200).

Fixpoint map_result {A B : Type} (f : A -> result B) (l : list A) : result (list B) :=
  match l with
  | [] => Ok []
  | x :: l' => do y <- f x; do ys <- map_result f l'; Ok (y :: ys)
  end.

Fixpoint fold_result {A S : Type} (f : S -> A -> result S) (l : list A) (s : S) : result S :=
  match l with
  | [] => Ok s
  | x :: l' => do s' <- f s x; fold_result f l' s'
  end.

(** ** Python values of the autoencoder's keyword dictionary *)

Inductive nn_module : Type :=
  | Dropout (p : Q)
  | LeakyReLU
  | OtherModule (name : string).

Inductive pyval : Type :=
  | PyNone
  | PyBool (b : bool)
  | PyFloat (q : Q)
  | PyIntList (l : list Z)
  | PyModule (m : nn_module).

(** [ae_args = dict(hid_size=[100], dropout=Dropout(p=0.5), ...)]. *)
Definition ae_defaults : gmap string pyval :=
  list_to_map
    [ ("hid_size", PyIntList [100%Z]);
      ("dropout", PyModule (Dropout (1 # 2)));
      ("activation", PyModule LeakyReLU);
      ("lat_activation", PyNone);
      ("batch_normalization", PyNone);
      ("bias", PyBool true);
      ("lr", PyFloat (1 # 1000));
      ("cuda", PyBool false) ].

(** [ae_args.update(kwargs)]: every key of [kwargs] is written into the
    dictionary, over a default of the same name when there is one. *)
Definition ae_args (kwargs : gmap string pyval) : gmap string pyval :=
  kwargs ∪ ae_defaults.

(** The configuration as section 9 of the specification words it: a structure
    of the eight named fields, each overridden only by a keyword of its name. *)
Record ae_config : Type := mk_ae_config {
  hid_size : pyval;
  dropout : pyval;
  activation : pyval;
  lat_activation : pyval;
  batch_normalization : pyval;
  bias : pyval;
  lr : pyval;
  cuda : pyval
}.

Definition ae_field_names : list string :=
  [ "hid_size"; "dropout"; "activation"; "lat_activation";
    "batch_normalization"; "bias"; "lr"; "cuda" ]%string.

Definition override (kwargs : gmap string pyval) (k : string) (d : pyval) : pyval :=
  default d (kwargs !! k).

Definition ae_config_of (kwargs : gmap string pyval) : ae_config :=
  {| hid_size := override kwargs "hid_size" (PyIntList [100%Z]);
     dropout := override kwargs "dropout" (PyModule (Dropout (1 # 2)));
     activation := override kwargs "activation" (PyModule LeakyReLU);
     lat_activation := override kwargs "lat_activation" PyNone;
     batch_normalization := override kwargs "batch_normalization" PyNone;
     bias := override kwargs "bias" (PyBool true);
     lr := override kwargs "lr" (PyFloat (1 # 1000));
     cuda := override kwargs "cuda" (PyBool false) |}.

Definition config_to_dict (c : ae_config) : gmap string pyval :=
  list_to_map
    [ ("hid_size", hid_size c); ("dropout", dropout c);
      ("activation", activation c); ("lat_activation", lat_activation c);
      ("batch_normalization", batch_normalization c); ("bias", bias c);
      ("lr", lr c); ("cuda", cuda c) ]%string.

(** ** Arrays, series and datasets *)

Section DataModel.
Context {F : Type}.

(** A 2-D array: [shape[0]] is the number of rows, [shape[1]] the number of
    columns (kept beside the rows, so that an array of no rows has one). *)
Record ndarray : Type := mk_ndarray {
  shape1 : nat;
  rows : list (list F)
}.

Definition shape0 (a : ndarray) : nat := length (rows a).

(** [data]: one array, or a list (or tuple) of arrays; the source asks
    [isinstance(data, (list, tuple))]. *)
Inductive pydata : Type :=
  | Single (a : ndarray)
  | Multiple (l : list ndarray).

Definition series_of (data : pydata) : list ndarray :=
  match data with
  | Single a => [a]
  | Multiple l => l
  end.

(** [lengths = [d.shape[0] for d in data]] *)
Definition lengths_of (data : pydata) : list nat := shape0 <$> series_of data.

(** The observations of all series, in series order then time order. *)
Definition all_rows (data : pydata) : list (list F) :=
  concat (rows <$> series_of data).

Definition sample_pair : Type := list F * list F.

(** Modelled from the spec: the windowing of [tae.utils.create_dataset],
    which is not among the sources.  Section 4.1: the pairs (x_t, x_{t+lag})
    of one series for t in [0, T - lag), in time order; none when T <= lag. *)
Definition lagged_pairs (lag : nat) (a : ndarray) : list sample_pair :=
  zip (rows a) (drop lag (rows a)).

Definition same_columns (l : list ndarray) : bool :=
  match l with
  | [] => true
  | a :: l' => forallb (fun b => shape1 b =? shape1 a) l'
  end.

(** Modelled from the spec: [tae.utils.create_dataset] is not among the
    sources.  Section 4.1: each series is windowed on its own, the pairs
    follow series order then time order, and the call fails with
    [ShapeMismatchError] when the series disagree on the column count. *)
Definition create_dataset (data : pydata) (lag : nat) : result (list sample_pair) :=
  if same_columns (series_of data)
  then Ok (concat (lagged_pairs lag <$> series_of data))
  else Err ShapeMismatchError.

(** The transformed data handed back: an array for [Single] input, a list of
    arrays for [Multiple] input.  A transformed array is its list of rows. *)
Inductive output : Type :=
  | OutArray (a : list (list F))
  | OutList (l : list (list (list F))).

Definition output_lengths (o : output) : list nat :=
  match o with
  | OutArray a => [length a]
  | OutList l => length <$> l
  end.

End DataModel.

Arguments ndarray F : clear implicits.
Arguments pydata F : clear implicits.
Arguments sample_pair F : clear implicits.
Arguments output F : clear implicits.

(** ** The splitter *)

(** Modelled from the spec: the rounding of section 4.2, "validation size =
    round(f * N)".  Ties go up; the spec does not fix them. *)
Definition round_nearest (q : Q) : Z := Qfloor (q + (1 # 2)).

Definition n_active (f : Q) (n : nat) : nat :=
  Z.to_nat (round_nearest (f * inject_Z (Z.of_nat n))).

Definition valid_fraction (f : Q) : bool :=
  match Qlt_le_dec 0 f, Qlt_le_dec f 1 with
  | left _, left _ => true
  | _, _ => false
  end.

(** Modelled from the spec: the random permutation of section 4.2.  The
    splitter draws one random number per place; the number, reduced modulo
    the number of indices still to place, picks the next index.  [draws] are
    the numbers drawn (a missing one counts as 0). *)
Fixpoint draw_order (n : nat) (draws : list nat) (pool : list nat) : list nat :=
  match n with
  | 0 => []
  | S n' =>
      let i := hd 0 draws mod length pool in
      match pool !! i with
      | Some x => x :: draw_order n' (tl draws) (delete i pool)
      | None => []
      end
  end.

(** Modelled from the spec: the permutation of the indices below [n] that
    the numbers [draws] give (section 4.2). *)
Definition random_permutation (draws : list nat) (n : nat) : list nat :=
  draw_order n draws (seq 0 n).

(** Modelled from the spec: [tae.utils.random_split] is not among the sources.
    Section 4.2: a random permutation of the indices is cut after
    round(f * N) places; the first part is the validation subset, the rest
    the training subset.  It fails with [InvalidFractionError] unless
    0 < f < 1, and when the cut would leave the validation or the training
    subset empty (both are used downstream, by [fit]). *)
Definition random_split_indices (draws : list nat) (n : nat) (f : Q)
  : result (list nat * list nat) :=
  if valid_fraction f && (0 <? n_active f n) && (n_active f n <? n)
  then Ok (take (n_active f n) (random_permutation draws n),
           drop (n_active f n) (random_permutation draws n))
  else Err InvalidFractionError.

(** The elements of [ds] at the places [idx], in the order of [idx]. *)
Definition select {X : Type} (ds : list X) (idx : list nat) : list X :=
  omap (fun i => ds !! i) idx.

(** Modelled from the spec: [random_split(dataset, f_active=f)] returns the
    two subsets, validation first (section 4.2). *)
Definition random_split {X : Type} (draws : list nat) (ds : list X) (f : Q)
  : result (list X * list X) :=
  do '(active, rest) <- random_split_indices draws (length ds) f;
  Ok (select ds active, select ds rest).

(** ** The batch iterator *)

(** Modelled from the spec: [DataLoader] is torch's and not among the
    sources.  [DataLoader(dataset, batch_size=B)] is built with the defaults
    only; section 4.3: a lazy, finite, restartable sequence of batches of up
    to B consecutive samples in dataset order, the last one possibly short,
    B >= 1. *)
Record DataLoader (X : Type) : Type := mk_DataLoader {
  dataset : list X;
  batch_size : positive
}.
Arguments mk_DataLoader {X} dataset batch_size.
Arguments dataset {X} d.
Arguments batch_size {X} d.

(** Modelled from the spec: a new iterator stands at the first sample. *)
Definition loader_iter {X : Type} (ld : DataLoader X) : nat := 0.

(** Modelled from the spec: the next batch and the iterator after it, or
    nothing when the dataset is exhausted; the loader itself is not changed. *)
Definition loader_next {X : Type} (ld : DataLoader X) (pos : nat)
  : option (list X * nat) :=
  if pos <? length (dataset ld)
  then Some (take (Pos.to_nat (batch_size ld)) (drop pos (dataset ld)),
             pos + Pos.to_nat (batch_size ld))
  else None.

Fixpoint loader_run {X : Type} (fuel : nat) (ld : DataLoader X) (pos : nat)
  : list (list X) :=
  match fuel with
  | 0 => []
  | S fuel' =>
      match loader_next ld pos with
      | None => []
      | Some (b, pos') => b :: loader_run fuel' ld pos'
      end
  end.

(** Modelled from the spec: one full pass [for batch in loader]: a new
    iterator, run until it is exhausted; [length (dataset ld)] steps always
    suffice. *)
Definition batches {X : Type} (ld : DataLoader X) : list (list X) :=
  loader_run (length (dataset ld)) ld (loader_iter ld).

(** Modelled from the spec: the order in which a pass visits the samples.
    A loader that shuffles would draw a new permutation for every pass; the
    loaders of [tae.api] are built without [shuffle] and visit the samples
    in dataset order. *)
Definition sampler (shuffle : bool) (draws : list nat) (n : nat) : list nat :=
  if shuffle then random_permutation draws n else seq 0 n.

(** Modelled from the spec: the batches of one pass whose random numbers are
    [draws]. *)
Definition pass {X : Type} (shuffle : bool) (draws : list nat) (ld : DataLoader X)
  : list (list X) :=
  batches (mk_DataLoader
             (select (dataset ld) (sampler shuffle draws (length (dataset ld))))
             (batch_size ld)).

(** Python's [a[lo:hi, :]] for [0 <= lo], [0 <= hi]: out-of-range bounds
    are clipped, never an error. *)
Definition slice_rows {X : Type} (lo hi : nat) (a : list X) : list X :=
  take (hi - lo) (drop lo a).

(** ** The estimators *)

Inductive linear_estimator : Type :=
  | PCA
  | TICA (kinetic_map symmetrize : bool).

(** The numerical kernels of [tae.models] and [tae.utils], which the
    embedding leaves open.
    - [moments], [stats_add], [stats_zero]: what one sample adds to the
      accumulated (co)variance statistics, and how contributions add up;
    - [solve]: the eigen-decomposition, giving the fitted model and the
      training loss ([SingularCovarianceError] is raised here);
    - [score]: the loss of a fitted model on accumulated statistics;
    - [ae_new]: the constructor [AE(size, dim, **ae_args)];
    - [ae_step]: one gradient update on a batch, with the batch's loss;
    - [ae_loss]: the loss on a batch, without an update;
    - [reduce_loss]: the batch losses of an epoch as one number;
    - [encode]: what [transform] computes for one observation;
    - [column_std], [fdiv], [is_zero]: the standard deviation of a column,
      division, and the test for a degenerate column, used by whitening. *)
Record Kernels (F model : Type) : Type := mk_Kernels {
  stats : Type;
  stats_zero : stats;
  stats_add : stats -> stats -> stats;
  moments : sample_pair F -> stats;
  solve : linear_estimator -> option nat -> stats -> result (model * F);
  score : model -> stats -> F;
  ae_new : nat -> option nat -> gmap string pyval -> result model;
  ae_step : model -> list (sample_pair F) -> result (model * F);
  ae_loss : model -> list (sample_pair F) -> F;
  reduce_loss : list F -> F;
  encode : model -> list F -> result (list F);
  column_std : list F -> F;
  fdiv : F -> F -> F;
  is_zero : F -> bool
}.
Arguments stats {F model} k.
Arguments stats_zero {F model} k.
Arguments stats_add {F model} k _ _.
Arguments moments {F model} k _.
Arguments solve {F model} k _ _ _.
Arguments score {F model} k _ _.
Arguments ae_new {F model} k _ _ _.
Arguments ae_step {F model} k _ _.
Arguments ae_loss {F model} k _ _.
Arguments reduce_loss {F model} k _.
Arguments encode {F model} k _ _.
Arguments column_std {F model} k _.
Arguments fdiv {F model} k _ _.
Arguments is_zero {F model} k _.

Section Estimators.
Context {F model : Type} (K : Kernels F model).

(** Modelled from the spec: [tae.models] is not among the sources.
    Sections 4.4 and 4.5: what one batch adds to the statistics. *)
Definition batch_stats (b : list (sample_pair F)) : stats K :=
  fold_left (fun acc p => stats_add K acc (moments K p)) b (stats_zero K).

(** Modelled from the spec: the statistics accumulated over all batches of
    one full pass, batch by batch (sections 4.4 and 4.5). *)
Definition accumulate (ld : DataLoader (sample_pair F)) : stats K :=
  fold_left (fun acc b => stats_add K acc (batch_stats b)) (batches ld) (stats_zero K).

(** Modelled from the spec: [PCA.fit] and [TICA.fit] (sections 4.4, 4.5):
    the model and the training loss come from the accumulated training
    statistics; the validation loss is computed the same way on
    [test_loader] when there is one, and is absent otherwise. *)
Definition fit_linear (est : linear_estimator) (train_loader : DataLoader (sample_pair F))
    (dim : option nat) (test_loader : option (DataLoader (sample_pair F)))
  : result (model * F * option F) :=
  do '(m, train_loss) <- solve K est dim (accumulate train_loader);
  Ok (m, train_loss, (fun tl => score K m (accumulate tl)) <$> test_loader).

(** Modelled from the spec: [AE.fit] (section 4.6): each epoch visits every
    training batch once and updates the parameters after each batch; the
    training loss reported is that of the last epoch. *)
Definition ae_epoch (m : model) (bs : list (list (sample_pair F)))
  : result (model * list F) :=
  fold_result
    (fun st b => do '(m', l) <- ae_step K (fst st) b; Ok (m', snd st ++ [l]))
    bs (m, []).

(** Modelled from the spec: [n_epochs] epochs one after the other; the state
    keeps the parameters and the batch losses of the last epoch run. *)
Fixpoint ae_epochs (n_epochs : nat) (bs : list (list (sample_pair F)))
    (st : model * list F) : result (model * list F) :=
  match n_epochs with
  | 0 => Ok st
  | S n => do st' <- ae_epoch (fst st) bs; ae_epochs n bs st'
  end.

(** Modelled from the spec: [AE.fit(train_loader, n_epochs, test_loader)]
    (section 4.6): the training loss of the last epoch, and the validation
    loss over [test_loader], without updates, when there is one. *)
Definition fit_ae (m0 : model) (train_loader : DataLoader (sample_pair F))
    (n_epochs : nat) (test_loader : option (DataLoader (sample_pair F)))
  : result (model * F * option F) :=
  do '(m, losses) <- ae_epochs n_epochs (batches train_loader) (m0, []);
  Ok (m, reduce_loss K losses,
      (fun tl => reduce_loss K (ae_loss K m <$> batches tl)) <$> test_loader).

(** Modelled from the spec: [model.transform(loader)] (sections 4.4, 4.6):
    one output row per sample, computed from x_t alone, batch after batch,
    the batch results concatenated. *)
Definition transform (m : model) (ld : DataLoader (sample_pair F))
  : result (list (list F)) :=
  do bs <- map_result (map_result (fun p => encode K m (fst p))) (batches ld);
  Ok (concat bs).

(** The number of columns of a matrix given by its rows, and its [j]-th
    column. *)
Definition width (t : list (list F)) : nat :=
  match t with
  | [] => 0
  | r :: _ => length r
  end.

Definition column (j : nat) (t : list (list F)) : list F :=
  omap (fun r => r !! j) t.

(** Modelled from the spec: the standard deviation of every column
    (section 4.7). *)
Definition column_stds (t : list (list F)) : list F :=
  (fun j => column_std K (column j t)) <$> seq 0 (width t).

(** Modelled from the spec: [tae.utils.whiten_data] is not among the
    sources.  Section 4.7: every column of the transformed matrix is divided
    by its standard deviation.  A column of zero variance is an error
    ([DegenerateColumnError]): section 7 makes numerical ill-conditioning a
    hard failure. *)
Definition whiten_data (t : list (list F)) : result (list (list F)) :=
  let stds := column_stds t in
  if existsb (is_zero K) stds
  then Err DegenerateColumnError
  else Ok ((fun r => zip_with (fdiv K) r stds) <$> t).

(** ** tae/api.py *)

(** [_transform(model, data, data_0, batch_size, whiten)], lines 31-45. *)
Definition collect_chunks (lengths : list nat) (transformed_data : list (list F))
  : list (list (list F)) :=
  fst (fold_left
         (fun st len => (fst st ++ [slice_rows (snd st) (snd st + len) transformed_data],
                         snd st + len))
         lengths ([], 0)).

Definition _transform (m : model) (data : pydata F) (data_0 : list (sample_pair F))
    (batch_size : positive) (whiten : bool) : result (output F) :=
  let loader := mk_DataLoader data_0 batch_size in
  do transformed_data <-
    (if whiten
     then do t <- transform m loader; whiten_data t
     else transform m loader);
  match data with
  | Multiple l => Ok (OutList (collect_chunks (shape0 <$> l) transformed_data))
  | Single _ => Ok (OutArray transformed_data)
  end.

(** [pca(data, dim, validation_split, batch_size, whiten)], lines 47-79. *)
Definition pca (data : pydata F) (dim : option nat) (validation_split : option Q)
    (batch_size : positive) (whiten : bool) (draws : list nat)
  : result (output F * F * option F) :=
  do data_0 <- create_dataset data 0;
  do '(train_loader, test_loader) <-
    match validation_split with
    | None => Ok (mk_DataLoader data_0 batch_size, None)
    | Some f =>
        do '(data_test, data_train) <- random_split draws data_0 f;
        Ok (mk_DataLoader data_train batch_size,
            Some (mk_DataLoader data_test batch_size))
    end;
  do '(m, train_loss, test_loss) <- fit_linear PCA train_loader dim test_loader;
  do transformed_data <- _transform m data data_0 batch_size whiten;
  Ok (transformed_data, train_loss, test_loss).

(** [tica(data, dim, lag, kinetic_map, symmetrize, validation_split,
    batch_size, whiten)], lines 81-119. *)
Definition tica (data : pydata F) (dim : option nat) (lag : nat)
    (kinetic_map symmetrize : bool) (validation_split : option Q)
    (batch_size : positive) (whiten : bool) (draws : list nat)
  : result (output F * F * option F) :=
  do data_0 <- create_dataset data 0;
  do data_lag <- create_dataset data lag;
  do '(train_loader, test_loader) <-
    match validation_split with
    | None => Ok (mk_DataLoader data_lag batch_size, None)
    | Some f =>
        do '(data_test, data_train) <- random_split draws data_lag f;
        Ok (mk_DataLoader data_train batch_size,
            Some (mk_DataLoader data_test batch_size))
    end;
  do '(m, train_loss, test_loss) <-
    fit_linear (TICA kinetic_map symmetrize) train_loader dim test_loader;
  do transformed_data <- _transform m data data_0 batch_size whiten;
  Ok (transformed_data, train_loss, test_loss).

(** [try: size = data.shape[1] except AttributeError: size = data[0].shape[1]],
    lines 153-156: a list has no [shape]; an empty list has no element 0. *)
Definition input_size (data : pydata F) : result nat :=
  match data with
  | Single a => Ok (shape1 a)
  | Multiple [] => Err IndexError
  | Multiple (a :: _) => Ok (shape1 a)
  end.

(** [ae(data, dim, lag, n_epochs, validation_split, batch_size, whiten,
    **kwargs)], lines 121-171. *)
Definition ae (data : pydata F) (dim : option nat) (lag : nat) (n_epochs : nat)
    (validation_split : option Q) (batch_size : positive) (whiten : bool)
    (kwargs : gmap string pyval) (draws : list nat)
  : result (output F * F * option F) :=
  let args := ae_args kwargs in
  do size <- input_size data;
  do data_0 <- create_dataset data 0;
  do data_lag <- create_dataset data lag;
  do '(train_loader, test_loader) <-
    match validation_split with
    | None => Ok (mk_DataLoader data_lag batch_size, None)
    | Some f =>
        do '(data_test, data_train) <- random_split draws data_lag f;
        Ok (mk_DataLoader data_train batch_size,
            Some (mk_DataLoader data_test batch_size))
    end;
  do m0 <- ae_new K size dim args;
  do '(m, train_loss, test_loss) <- fit_ae m0 train_loader n_epochs test_loader;
  do transformed_data <- _transform m data data_0 batch_size whiten;
  Ok (transformed_data, train_loss, test_loss).

End Estimators.

(** ** Whitening over the reals

    The floating point kernels of whitening read as real arithmetic: the
    sample standard deviation of a column. *)

Definition Rsum (l : list R) : R := fold_right Rplus 0%R l.

Definition mean (l : list R) : R := (Rsum l / INR (length l))%R.

Definition sample_variance (l : list R) : R :=
  (Rsum ((fun x => (x - mean l) * (x - mean l)) <$> l) / INR (length l - 1))%R.

Definition std_dev (l : list R) : R := sqrt (sample_variance l).

Definition real_whitening {model : Type} (K : Kernels R model) : Prop :=
  column_std K = std_dev /\
  fdiv K = Rdiv /\
  forall s : R, is_zero K s = true <-> s = 0%R.

(** The sum of the first [i] lengths: where the [i]-th chunk starts. *)
Definition offset (lengths : list nat) (i : nat) : nat :=
  sum_list (take i lengths).

(** The rows an output holds, in order. *)
Definition output_rows {F : Type} (o : output F) : list (list F) :=
  match o with
  | OutArray a => a
  | OutList l => concat l
  end.

(** The chunks the reassembler cuts, one after the other. *)
Fixpoint split_at {X : Type} (lengths : list nat) (t : list X) : list (list X) :=
  match lengths with
  | [] => []
  | n :: lengths' => take n t :: split_at lengths' (drop n t)
  end.

(** What [_transform] hands back for the transformed matrix [t]. *)
Definition reassemble {F : Type} (data : pydata F) (t : list (list F)) : output F :=
  match data with
  | Multiple l => OutList (split_at (shape0 <$> l) t)
  | Single _ => OutArray t
  end.

(** The branch on [validation_split] that [pca], [tica] and [ae] share: the
    loaders handed to [fit] for the dataset [ds]. *)
Definition split_loaders {X : Type} (ds : list X) (validation_split : option Q)
    (batch_size : positive) (draws : list nat)
  : result (DataLoader X * option (DataLoader X)) :=
  match validation_split with
  | None => Ok (mk_DataLoader ds batch_size, None)
  | Some f =>
      do '(data_test, data_train) <- random_split draws ds f;
      Ok (mk_DataLoader data_train batch_size,
          Some (mk_DataLoader data_test batch_size))
  end.

(** [out] is the transformed data some successful call of [pca], [tica] or
    [ae] on [data] returned, with the given [batch_size] and [whiten]. *)
Definition api_returns {F model : Type} (K : Kernels F model) (data : pydata F)
    (batch_size : positive) (whiten : bool) (out : output F) : Prop :=
  (exists dim vs perm trl tel,
      pca K data dim vs batch_size whiten perm = Ok (out, trl, tel)) \/
  (exists dim lag km sym vs perm trl tel,
      tica K data dim lag km sym vs batch_size whiten perm = Ok (out, trl, tel)) \/
  (exists dim lag n_epochs vs kwargs perm trl tel,
      ae K data dim lag n_epochs vs batch_size whiten kwargs perm = Ok (out, trl, tel)).

(** ** A small exact instance of the kernels

    Integer arithmetic in place of floating point; it lets the entry points
    run on concrete series. *)
Definition demo_kernels : Kernels Z Z :=
  {| stats := Z;
     stats_zero := 0%Z;
     stats_add := Z.add;
     moments := fun p => hd 0%Z (fst p);
     solve := fun _ _ s => Ok (s, (- s)%Z);
     score := fun m s => (s - m)%Z;
     ae_new := fun _ _ _ => Ok 0%Z;
     ae_step := fun m b => Ok ((m + 1)%Z, Z.of_nat (length b));
     ae_loss := fun m b => Z.of_nat (length b);
     reduce_loss := fun ls => Z.of_nat (length ls);
     encode := fun m x => Ok ((fun v => (v - m)%Z) <$> x);
     column_std := fun c => fold_right Z.max 0%Z (Z.abs <$> c);
     fdiv := Z.div;
     is_zero := Z.eqb 0%Z |}.

Definition demo_series_1 : ndarray Z :=
  {| shape1 := 2; rows := [[1; 2]; [3; 4]]%Z |}.

Definition demo_series_2 : ndarray Z :=
  {| shape1 := 2; rows := [[5; 6]; [7; 8]; [9; 10]]%Z |}.

Definition demo_data : pydata Z := Multiple [demo_series_1; demo_series_2].

(** ** The identity model with real whitening

    Two series of one column, [0, 1] and [0, 3]: pooled, the column has sample
    variance 2. *)
Definition real_kernels : Kernels R unit :=
  {| stats := unit;
     stats_zero := tt;
     stats_add := fun _ _ => tt;
     moments := fun _ => tt;
     solve := fun _ _ _ => Ok (tt, 0%R);
     score := fun _ _ => 0%R;
     ae_new := fun _ _ _ => Ok tt;
     ae_step := fun _ _ => Ok (tt, 0%R);
     ae_loss := fun _ _ => 0%R;
     reduce_loss := fun _ => 0%R;
     encode := fun _ x => Ok x;
     column_std := std_dev;
     fdiv := Rdiv;
     is_zero := fun s => if Req_dec_T s 0%R then true else false |}.

Definition pooled_series_1 : ndarray R :=
  {| shape1 := 1; rows := [[0%R]; [1%R]] |}.

Definition pooled_series_2 : ndarray R :=
  {| shape1 := 1; rows := [[0%R]; [3%R]] |}.

Definition pooled_data : pydata R := Multiple [pooled_series_1; pooled_series_2].

(** An output read as a list of arrays: a single array is the list of one. *)
Definition as_list {F : Type} (o : output F) : output F :=
  match o with
  | OutArray t => OutList [t]
  | OutList l => OutList l
  end.

(** What a call on [Multiple [a]] returns when the call on [Single a]
    returns [r]. *)
Definition listed {F : Type} (r : result (output F * F * option F))
  : result (output F * F * option F) :=
  do '(o, train_loss, test_loss) <- r; Ok (as_list o, train_loss, test_loss).


(** The kernels of [demo_kernels] with a constructor that takes the eight
    documented keywords only, as a Python signature with named parameters
    would: any other keyword is a [TypeError]. *)
Definition strict_kernels : Kernels Z Z :=
  {| stats := stats demo_kernels;
     stats_zero := stats_zero demo_kernels;
     stats_add := stats_add demo_kernels;
     moments := moments demo_kernels;
     solve := solve demo_kernels;
     score := score demo_kernels;
     ae_new := fun _ _ args =>
       if bool_decide (dom args ⊆ (list_to_set ae_field_names : gset string))
       then Ok 0%Z else Err TypeError;
     ae_step := ae_step demo_kernels;
     ae_loss := ae_loss demo_kernels;
     reduce_loss := reduce_loss demo_kernels;
     encode := encode demo_kernels;
     column_std := column_std demo_kernels;
     fdiv := fdiv demo_kernels;
     is_zero := is_zero demo_kernels |}.

(** ** Accumulation in floating point

    The statistics are binary64 sums of the first coordinate; the fitted
    "model" and the training loss are that sum. *)
Module Binary64.
Import PrimFloat.






End Binary64.

(** * Properties *)

(** ** The error monad *)

Lemma bind_Ok {A B : Type} (r : result A) (k : A -> result B) (b : B) :
  bind r k = Ok b -> exists a, r = Ok a /\ k a = Ok b.
Proof. destruct r as [a|e]; simpl; [eauto | discriminate]. Qed.

Ltac inv_bind H :=
  let a := fresh "a" in
  let Ha := fresh "Ha" in
  apply bind_Ok in H; destruct H as (a & Ha & H).

Lemma map_result_app {A B : Type} (f : A -> result B) (l1 l2 : list A) :
  map_result f (l1 ++ l2) =
  do y1 <- map_result f l1; do y2 <- map_result f l2; Ok (y1 ++ y2).
Proof.
  induction l1 as [|x l1 IH]; simpl.
  - destruct (map_result f l2); reflexivity.
  - destruct (f x) as [y|e]; simpl; [|reflexivity].
    rewrite IH. destruct (map_result f l1) as [y1|e]; simpl; [|reflexivity].
    destruct (map_result f l2); reflexivity.
Qed.

Lemma map_result_concat {A B : Type} (f : A -> result B) (ls : list (list A)) :
  (do ys <- map_result (map_result f) ls; Ok (concat ys)) = map_result f (concat ls).
Proof.
  induction ls as [|l ls IH]; simpl; [reflexivity|].
  rewrite map_result_app, <- IH.
  destruct (map_result f l) as [y|e]; simpl; [|reflexivity].
  destruct (map_result (map_result f) ls); reflexivity.
Qed.

Lemma map_result_Forall2 {A B : Type} (f : A -> result B) (l : list A) (ys : list B) :
  map_result f l = Ok ys <-> Forall2 (fun x y => f x = Ok y) l ys.
Proof.
  revert ys. induction l as [|x l IH]; intros ys; simpl.
  - split; intros H.
    + injection H as <-. constructor.
    + inversion H. reflexivity.
  - split; intros H.
    + inv_bind H. inv_bind H. injection H as <-.
      constructor; [assumption | apply IH; assumption].
    + inversion H as [|? y ? ys' Hxy Hrest]; subst.
      rewrite Hxy; simpl. apply IH in Hrest. rewrite Hrest. reflexivity.
Qed.

Lemma map_result_length {A B : Type} (f : A -> result B) (l : list A) (ys : list B) :
  map_result f l = Ok ys -> length ys = length l.
Proof.
  intros H. apply map_result_Forall2 in H.
  symmetry. eapply Forall2_length, H.
Qed.

Lemma map_result_fmap {A B C : Type} (g : A -> B) (f : B -> result C) (l : list A) :
  map_result f (g <$> l) = map_result (fun x => f (g x)) l.
Proof.
  induction l as [|x l IH]; [reflexivity|].
  rewrite fmap_cons. simpl. rewrite IH. reflexivity.
Qed.

(** ** The batch iterator *)

Section Batches.
Context {X : Type}.
Implicit Types (ld : DataLoader X) (pos fuel k : nat).

Lemma loader_run_concat ld fuel pos :
  length (dataset ld) - pos <= fuel ->
  concat (loader_run fuel ld pos) = drop pos (dataset ld).
Proof.
  revert pos. induction fuel as [|fuel IH]; intros pos Hfuel; simpl.
  - symmetry. apply drop_ge. lia.
  - unfold loader_next. destruct (Nat.ltb_spec pos (length (dataset ld))) as [Hlt|Hge].
    + simpl. rewrite IH by lia.
      rewrite <- (take_drop (Pos.to_nat (batch_size ld)) (drop pos (dataset ld))) at 2.
      rewrite drop_drop. reflexivity.
    + simpl. symmetry. apply drop_ge. lia.
Qed.

Lemma batches_concat ld : concat (batches ld) = dataset ld.
Proof.
  unfold batches, loader_iter. rewrite loader_run_concat by lia. apply drop_0.
Qed.

Lemma loader_run_lookup ld fuel pos k :
  length (dataset ld) - pos <= fuel ->
  loader_run fuel ld pos !! k =
  if pos + k * Pos.to_nat (batch_size ld) <? length (dataset ld)
  then Some (slice_rows (pos + k * Pos.to_nat (batch_size ld))
                        (pos + k * Pos.to_nat (batch_size ld) + Pos.to_nat (batch_size ld))
                        (dataset ld))
  else None.
Proof.
  pose proof (Pos2Nat.is_pos (batch_size ld)) as HB.
  revert pos k. induction fuel as [|fuel IH]; intros pos k Hfuel; simpl.
  - destruct (Nat.ltb_spec (pos + k * Pos.to_nat (batch_size ld)) (length (dataset ld)));
      [lia | reflexivity].
  - unfold loader_next. destruct (Nat.ltb_spec pos (length (dataset ld))) as [Hlt|Hge].
    + destruct k as [|k]; simpl.
      * rewrite Nat.add_0_r.
        destruct (Nat.ltb_spec pos (length (dataset ld))); [|lia].
        unfold slice_rows. do 2 f_equal. lia.
      * rewrite IH by lia.
        replace (pos + Pos.to_nat (batch_size ld) + k * Pos.to_nat (batch_size ld))
          with (pos + (Pos.to_nat (batch_size ld) + k * Pos.to_nat (batch_size ld))) by lia.
        reflexivity.
    + destruct (Nat.ltb_spec (pos + k * Pos.to_nat (batch_size ld)) (length (dataset ld)));
        [lia|]. apply lookup_nil.
Qed.

Lemma batches_lookup ld k :
  batches ld !! k =
  if k * Pos.to_nat (batch_size ld) <? length (dataset ld)
  then Some (slice_rows (k * Pos.to_nat (batch_size ld))
                        (k * Pos.to_nat (batch_size ld) + Pos.to_nat (batch_size ld))
                        (dataset ld))
  else None.
Proof.
  unfold batches, loader_iter. rewrite loader_run_lookup by lia. reflexivity.
Qed.


Lemma loader_run_fuel ld fuel pos :
  length (dataset ld) - pos <= fuel ->
  loader_run fuel ld pos = loader_run (length (dataset ld) - pos) ld pos.
Proof.
  intros Hfuel. apply list_eq. intros k.
  rewrite !loader_run_lookup by lia. reflexivity.
Qed.

Lemma batches_restart ld fuel :
  length (dataset ld) <= fuel ->
  loader_run fuel ld (loader_iter ld) = batches ld.
Proof.
  intros Hfuel. unfold batches, loader_iter.
  rewrite (loader_run_fuel ld fuel 0) by lia.
  rewrite Nat.sub_0_r. reflexivity.
Qed.

End Batches.

(** ** Datasets *)

Section DatasetFacts.
Context {F : Type}.
Implicit Types (a : ndarray F) (data : pydata F) (lag : nat).

Lemma zip_diag {X : Type} (l : list X) : zip l l = (fun x => (x, x)) <$> l.
Proof. induction l as [|x l IH]; simpl; [reflexivity|]. rewrite IH. reflexivity. Qed.

Lemma lagged_pairs_0 a : lagged_pairs 0 a = (fun x => (x, x)) <$> rows a.
Proof. unfold lagged_pairs. rewrite drop_0. apply zip_diag. Qed.

Lemma lagged_pairs_length lag a : length (lagged_pairs lag a) = shape0 a - lag.
Proof.
  unfold lagged_pairs, shape0, sample_pair.
  rewrite length_zip_with, length_drop. lia.
Qed.

Lemma create_dataset_Ok data lag d :
  create_dataset data lag = Ok d ->
  same_columns (series_of data) = true /\ d = concat (lagged_pairs lag <$> series_of data).
Proof.
  unfold create_dataset. destruct (same_columns (series_of data)); [|discriminate].
  intros H. injection H as <-. split; reflexivity.
Qed.

Lemma concat_fmap_fmap {X Y Z : Type} (g : Y -> Z) (h : X -> list Y) (l : list X) :
  concat ((fun x => g <$> h x) <$> l) = g <$> concat (h <$> l).
Proof.
  induction l as [|x l IH]; [reflexivity|].
  rewrite !fmap_cons. simpl. rewrite IH, fmap_app. reflexivity.
Qed.

Lemma create_dataset_0 data d0 :
  create_dataset data 0 = Ok d0 -> d0 = (fun x => (x, x)) <$> all_rows data.
Proof.
  intros H. apply create_dataset_Ok in H as [_ ->]. unfold all_rows.
  rewrite <- (concat_fmap_fmap (fun x => (x, x)) rows).
  f_equal. apply list_fmap_ext. intros _ a _. apply lagged_pairs_0.
Qed.

Lemma length_concat_fmap {X Y : Type} (h : X -> list Y) (l : list X) :
  length (concat (h <$> l)) = sum_list ((fun x => length (h x)) <$> l).
Proof.
  induction l as [|x l IH]; [reflexivity|].
  rewrite !fmap_cons. simpl. rewrite length_app, IH. reflexivity.
Qed.

Lemma create_dataset_length data lag d :
  create_dataset data lag = Ok d ->
  length d = sum_list ((fun a => shape0 a - lag) <$> series_of data).
Proof.
  intros H. apply create_dataset_Ok in H as [_ ->].
  rewrite length_concat_fmap. f_equal. apply list_fmap_ext.
  intros _ a _. apply lagged_pairs_length.
Qed.

Lemma create_dataset_0_length data d0 :
  create_dataset data 0 = Ok d0 -> length d0 = sum_list (lengths_of data).
Proof.
  intros H. rewrite (create_dataset_length _ _ _ H). unfold lengths_of.
  f_equal. apply list_fmap_ext. intros _ a _. lia.
Qed.

Lemma create_dataset_lag_irrelevant data lag d :
  create_dataset data lag = Ok d -> exists d0, create_dataset data 0 = Ok d0.
Proof.
  intros H. apply create_dataset_Ok in H as [Hc _].
  unfold create_dataset. rewrite Hc. eauto.
Qed.

Lemma create_dataset_0_Ok data :
  same_columns (series_of data) = true ->
  create_dataset data 0 = Ok ((fun x => (x, x)) <$> all_rows data).
Proof.
  intros Hc. destruct (create_dataset data 0) as [d0|e] eqn:Hd.
  - rewrite (create_dataset_0 _ _ Hd). reflexivity.
  - unfold create_dataset in Hd. rewrite Hc in Hd. discriminate.
Qed.

End DatasetFacts.

(** ** The reassembler *)

Section Reassembler.
Context {X : Type}.
Implicit Types (t : list X) (lengths : list nat).

Lemma collect_fold lengths t (acc : list (list X)) (p : nat) :
  fold_left
    (fun st len => (fst st ++ [slice_rows (snd st) (snd st + len) t], snd st + len))
    lengths (acc, p)
  = (acc ++ split_at lengths (drop p t), p + sum_list lengths).
Proof.
  revert acc p. induction lengths as [|n lengths IH]; intros acc p; simpl.
  - rewrite app_nil_r, Nat.add_0_r. reflexivity.
  - rewrite IH. rewrite <- app_assoc. simpl. unfold slice_rows.
    replace (p + n - p) with n by lia.
    rewrite drop_drop, Nat.add_assoc. reflexivity.
Qed.

Lemma split_at_length lengths t : length (split_at lengths t) = length lengths.
Proof.
  revert t. induction lengths as [|n lengths IH]; intros t; simpl;
    [reflexivity | rewrite IH; reflexivity].
Qed.

Lemma split_at_lookup lengths t i n :
  lengths !! i = Some n ->
  split_at lengths t !! i = Some (slice_rows (offset lengths i) (offset lengths i + n) t).
Proof.
  unfold offset, slice_rows.
  revert t i. induction lengths as [|n0 lengths IH]; intros t i Hi; [discriminate|].
  destruct i as [|i]; simpl in *.
  - injection Hi as ->. rewrite drop_0. do 2 f_equal. lia.
  - rewrite (IH _ _ Hi). rewrite drop_drop.
    do 2 f_equal. lia.
Qed.

Lemma split_at_concat lengths t :
  concat (split_at lengths t) = take (sum_list lengths) t.
Proof.
  revert t. induction lengths as [|n lengths IH]; intros t; simpl.
  - reflexivity.
  - rewrite IH. rewrite <- take_take_drop. reflexivity.
Qed.

Lemma split_at_concat_all lengths t :
  length t = sum_list lengths -> concat (split_at lengths t) = t.
Proof.
  intros H. rewrite split_at_concat. apply take_ge. lia.
Qed.

Lemma split_at_lengths lengths t :
  sum_list lengths <= length t -> length <$> split_at lengths t = lengths.
Proof.
  revert t. induction lengths as [|n lengths IH]; intros t Hle; simpl in *.
  - reflexivity.
  - rewrite IH by (rewrite length_drop; lia).
    rewrite length_take. f_equal. lia.
Qed.

End Reassembler.

Lemma collect_chunks_split_at {F : Type} (lengths : list nat) (t : list (list F)) :
  collect_chunks lengths t = split_at lengths t.
Proof.
  unfold collect_chunks. rewrite collect_fold. simpl. rewrite drop_0. reflexivity.
Qed.

(** ** Transform and whitening *)

Section ApiFacts.
Context {F model : Type} (K : Kernels F model).
Implicit Types (m : model) (data : pydata F) (B : positive) (t : list (list F)).

Lemma transform_rows m (ld : DataLoader (sample_pair F)) :
  transform K m ld = map_result (fun p => encode K m (fst p)) (dataset ld).
Proof.
  unfold transform. rewrite map_result_concat, batches_concat. reflexivity.
Qed.


Lemma transform_data_0 m data d0 B :
  create_dataset data 0 = Ok d0 ->
  transform K m (mk_DataLoader d0 B) = map_result (encode K m) (all_rows data).
Proof.
  intros H. rewrite transform_rows. simpl.
  rewrite (create_dataset_0 _ _ H), map_result_fmap. reflexivity.
Qed.

Lemma transform_length m (ld : DataLoader (sample_pair F)) t :
  transform K m ld = Ok t -> length t = length (dataset ld).
Proof. rewrite transform_rows. apply map_result_length. Qed.

Lemma whiten_data_Ok t w :
  whiten_data K t = Ok w ->
  existsb (is_zero K) (column_stds K t) = false /\
  w = (fun r => zip_with (fdiv K) r (column_stds K t)) <$> t.
Proof.
  unfold whiten_data. destruct (existsb (is_zero K) (column_stds K t)); [discriminate|].
  intros H. injection H as <-. split; reflexivity.
Qed.

Lemma whiten_data_length t w : whiten_data K t = Ok w -> length w = length t.
Proof. intros H. apply whiten_data_Ok in H as [_ ->]. apply length_fmap. Qed.

Lemma _transform_Ok m data d0 B (whiten : bool) out :
  _transform K m data d0 B whiten = Ok out ->
  exists t td,
    transform K m (mk_DataLoader d0 B) = Ok t /\
    (if whiten then whiten_data K t = Ok td else td = t) /\
    out = reassemble data td.
Proof.
  unfold _transform. intros H. inv_bind H.
  assert (Hout : out = reassemble data a).
  { destruct data; injection H as <-; unfold reassemble;
      [reflexivity | rewrite collect_chunks_split_at; reflexivity]. }
  destruct whiten.
  - inv_bind Ha. eauto.
  - eauto.
Qed.

Lemma reassemble_rows data t :
  length t = sum_list (lengths_of data) -> output_rows (reassemble data t) = t.
Proof.
  destruct data as [a|l]; simpl; [reflexivity|].
  intros H. apply split_at_concat_all. exact H.
Qed.

Lemma reassemble_lengths data t :
  length t = sum_list (lengths_of data) ->
  output_lengths (reassemble data t) = lengths_of data.
Proof.
  destruct data as [a|l]; unfold lengths_of; simpl; intros H.
  - f_equal. lia.
  - apply split_at_lengths. fold (shape0 (F:=F)). lia.
Qed.

Lemma _transform_rows m data d0 B (whiten : bool) out :
  create_dataset data 0 = Ok d0 ->
  _transform K m data d0 B whiten = Ok out ->
  exists t td,
    transform K m (mk_DataLoader d0 B) = Ok t /\
    (if whiten then whiten_data K t = Ok td else td = t) /\
    length td = sum_list (lengths_of data) /\
    out = reassemble data td.
Proof.
  intros Hd H. apply _transform_Ok in H as (t & td & Ht & Hw & ->).
  exists t, td. repeat split; try assumption.
  apply transform_length in Ht. simpl in Ht.
  rewrite <- (create_dataset_0_length _ _ Hd), <- Ht.
  destruct whiten; [apply (whiten_data_length _ _ Hw) | congruence].
Qed.

(** [_transform] returns as soon as every input row encodes (and, when
    whitening, no column is degenerate): the iterator never runs short. *)
Lemma _transform_returns m data d0 B (whiten : bool) t :
  create_dataset data 0 = Ok d0 ->
  map_result (encode K m) (all_rows data) = Ok t ->
  (whiten = true -> existsb (is_zero K) (column_stds K t) = false) ->
  exists out, _transform K m data d0 B whiten = Ok out.
Proof.
  intros Hd Ht Hw. unfold _transform.
  rewrite (transform_data_0 _ _ _ _ Hd), Ht.
  destruct whiten; simpl.
  - unfold whiten_data. rewrite (Hw eq_refl). simpl. destruct data; eauto.
  - destruct data; eauto.
Qed.

(** ** Reading a successful call backwards *)

Lemma pca_Ok data dim vs B (whiten : bool) perm out trl tel :
  pca K data dim vs B whiten perm = Ok (out, trl, tel) ->
  exists d0 train_loader test_loader m,
    create_dataset data 0 = Ok d0 /\
    split_loaders d0 vs B perm = Ok (train_loader, test_loader) /\
    fit_linear K PCA train_loader dim test_loader = Ok (m, trl, tel) /\
    _transform K m data d0 B whiten = Ok out.
Proof.
  unfold pca. intros H.
  inv_bind H. rename a into d0.
  inv_bind H. destruct a as [trainl testl].
  inv_bind H. destruct a as [[m trl'] tel'].
  inv_bind H. injection H as -> -> ->.
  exists d0, trainl, testl, m. repeat split; assumption.
Qed.

Lemma tica_Ok data dim lag km sym vs B (whiten : bool) perm out trl tel :
  tica K data dim lag km sym vs B whiten perm = Ok (out, trl, tel) ->
  exists d0 dlag train_loader test_loader m,
    create_dataset data 0 = Ok d0 /\
    create_dataset data lag = Ok dlag /\
    split_loaders dlag vs B perm = Ok (train_loader, test_loader) /\
    fit_linear K (TICA km sym) train_loader dim test_loader = Ok (m, trl, tel) /\
    _transform K m data d0 B whiten = Ok out.
Proof.
  unfold tica. intros H.
  inv_bind H. rename a into d0.
  inv_bind H. rename a into dlag.
  inv_bind H. destruct a as [trainl testl].
  inv_bind H. destruct a as [[m trl'] tel'].
  inv_bind H. injection H as -> -> ->.
  exists d0, dlag, trainl, testl, m. repeat split; assumption.
Qed.

Lemma ae_Ok data dim lag n_epochs vs B (whiten : bool) kwargs perm out trl tel :
  ae K data dim lag n_epochs vs B whiten kwargs perm = Ok (out, trl, tel) ->
  exists size d0 dlag train_loader test_loader m0 m,
    input_size data = Ok size /\
    create_dataset data 0 = Ok d0 /\
    create_dataset data lag = Ok dlag /\
    split_loaders dlag vs B perm = Ok (train_loader, test_loader) /\
    ae_new K size dim (ae_args kwargs) = Ok m0 /\
    fit_ae K m0 train_loader n_epochs test_loader = Ok (m, trl, tel) /\
    _transform K m data d0 B whiten = Ok out.
Proof.
  unfold ae. intros H.
  inv_bind H. rename a into size.
  inv_bind H. rename a into d0.
  inv_bind H. rename a into dlag.
  inv_bind H. destruct a as [trainl testl].
  inv_bind H. rename a into m0.
  inv_bind H. destruct a as [[m trl'] tel'].
  inv_bind H. injection H as -> -> ->.
  exists size, d0, dlag, trainl, testl, m0, m. repeat split; assumption.
Qed.

(** ** Building a successful call forwards *)

(** [_transform] on the lag-0 dataset, without the loader: it fails exactly
    when a row does not encode or the whitening fails. *)
Lemma _transform_normal m data d0 B (whiten : bool) :
  create_dataset data 0 = Ok d0 ->
  _transform K m data d0 B whiten
  = (do t <- map_result (encode K m) (all_rows data);
     do td <- (if whiten then whiten_data K t else Ok t);
     Ok (reassemble data td)).
Proof.
  intros Hd. unfold _transform. rewrite (transform_data_0 _ _ _ _ Hd).
  destruct (map_result (encode K m) (all_rows data)) as [t|e]; simpl;
    [|destruct whiten; reflexivity].
  destruct whiten; simpl.
  - destruct (whiten_data K t) as [td|e]; simpl; [|reflexivity].
    destruct data; simpl; [reflexivity | rewrite collect_chunks_split_at; reflexivity].
  - destruct data; simpl; [reflexivity | rewrite collect_chunks_split_at; reflexivity].
Qed.

Lemma pca_intro data dim vs B (whiten : bool) draws d0 train_loader test_loader
    m trl tel out :
  create_dataset data 0 = Ok d0 ->
  split_loaders d0 vs B draws = Ok (train_loader, test_loader) ->
  fit_linear K PCA train_loader dim test_loader = Ok (m, trl, tel) ->
  _transform K m data d0 B whiten = Ok out ->
  pca K data dim vs B whiten draws = Ok (out, trl, tel).
Proof.
  intros Hd Hs Hf Ht. unfold pca. rewrite Hd. cbn [bind].
  unfold split_loaders in Hs. rewrite Hs. cbn [bind].
  rewrite Hf. cbn [bind]. rewrite Ht. reflexivity.
Qed.

Lemma tica_intro data dim lag km sym vs B (whiten : bool) draws d0 dlag
    train_loader test_loader m trl tel out :
  create_dataset data 0 = Ok d0 ->
  create_dataset data lag = Ok dlag ->
  split_loaders dlag vs B draws = Ok (train_loader, test_loader) ->
  fit_linear K (TICA km sym) train_loader dim test_loader = Ok (m, trl, tel) ->
  _transform K m data d0 B whiten = Ok out ->
  tica K data dim lag km sym vs B whiten draws = Ok (out, trl, tel).
Proof.
  intros Hd Hl Hs Hf Ht. unfold tica. rewrite Hd, Hl. cbn [bind].
  unfold split_loaders in Hs. rewrite Hs. cbn [bind].
  rewrite Hf. cbn [bind]. rewrite Ht. reflexivity.
Qed.

Lemma ae_intro data dim lag n_epochs vs B (whiten : bool) kwargs draws size d0 dlag
    train_loader test_loader m0 m trl tel out :
  input_size data = Ok size ->
  create_dataset data 0 = Ok d0 ->
  create_dataset data lag = Ok dlag ->
  split_loaders dlag vs B draws = Ok (train_loader, test_loader) ->
  ae_new K size dim (ae_args kwargs) = Ok m0 ->
  fit_ae K m0 train_loader n_epochs test_loader = Ok (m, trl, tel) ->
  _transform K m data d0 B whiten = Ok out ->
  ae K data dim lag n_epochs vs B whiten kwargs draws = Ok (out, trl, tel).
Proof.
  intros Hsz Hd Hl Hs Hn Hf Ht. unfold ae. rewrite Hsz, Hd, Hl. cbn [bind].
  unfold split_loaders in Hs. rewrite Hs. cbn [bind].
  rewrite Hn. cbn [bind]. rewrite Hf. cbn [bind]. rewrite Ht. reflexivity.
Qed.

End ApiFacts.

Lemma api_returns_transform {F model : Type} (K : Kernels F model)
    (data : pydata F) (B : positive) (whiten : bool) (out : output F) :
  api_returns K data B whiten out ->
  exists d0 m, create_dataset data 0 = Ok d0 /\ _transform K m data d0 B whiten = Ok out.
Proof.
  intros [H|[H|H]].
  - destruct H as (dim & vs & perm & trl & tel & H).
    apply pca_Ok in H as (d0 & _ & _ & m & Hd & _ & _ & Ht). eauto.
  - destruct H as (dim & lag & km & sym & vs & perm & trl & tel & H).
    apply tica_Ok in H as (d0 & _ & _ & _ & m & Hd & _ & _ & _ & Ht). eauto.
  - destruct H as (dim & lag & n & vs & kw & perm & trl & tel & H).
    apply ae_Ok in H as (_ & d0 & _ & _ & _ & _ & m & _ & Hd & _ & _ & _ & _ & Ht).
    eauto.
Qed.

(** * The claims *)

(** C1. [tica] and [ae] build the dataset they transform with [lag = 0],
    whatever lag they fit with.  A call returns [(out, train_loss,
    test_loss)] exactly when the fit on the lagged dataset (T_i - lag pairs
    per series) returns the losses and [_transform] on [create_dataset data 0]
    returns [out]; [out] then has the lengths of the input series, one row per
    observation.  [_transform] on the lag-0 dataset returns such an output
    whenever every observation encodes (and, with whitening, no column is
    degenerate). *)
Theorem transform_uses_lag_0 {F model : Type} (K : Kernels F model)
    (data : pydata F) (dim : option nat) (lag : nat) (vs : option Q)
    (B : positive) (whiten : bool) (perm : list nat)
    (out : output F) (trl : F) (tel : option F) :
  (forall km sym,
      tica K data dim lag km sym vs B whiten perm = Ok (out, trl, tel) <->
      exists d0 dlag train_loader test_loader m,
        create_dataset data 0 = Ok d0 /\
        create_dataset data lag = Ok dlag /\
        length dlag = sum_list ((fun a => shape0 a - lag) <$> series_of data) /\
        split_loaders dlag vs B perm = Ok (train_loader, test_loader) /\
        fit_linear K (TICA km sym) train_loader dim test_loader = Ok (m, trl, tel) /\
        _transform K m data d0 B whiten = Ok out /\
        output_lengths out = lengths_of data) /\
  (forall n_epochs kwargs,
      ae K data dim lag n_epochs vs B whiten kwargs perm = Ok (out, trl, tel) <->
      exists size d0 dlag train_loader test_loader m0 m,
        input_size data = Ok size /\
        create_dataset data 0 = Ok d0 /\
        create_dataset data lag = Ok dlag /\
        length dlag = sum_list ((fun a => shape0 a - lag) <$> series_of data) /\
        split_loaders dlag vs B perm = Ok (train_loader, test_loader) /\
        ae_new K size dim (ae_args kwargs) = Ok m0 /\
        fit_ae K m0 train_loader n_epochs test_loader = Ok (m, trl, tel) /\
        _transform K m data d0 B whiten = Ok out /\
        output_lengths out = lengths_of data) /\
  (forall (m : model) t,
      same_columns (series_of data) = true ->
      map_result (encode K m) (all_rows data) = Ok t ->
      (whiten = true -> existsb (is_zero K) (column_stds K t) = false) ->
      exists d0 out',
        create_dataset data 0 = Ok d0 /\
        _transform K m data d0 B whiten = Ok out' /\
        output_lengths out' = lengths_of data).
Proof.
  assert (Hlen : forall d0 m o,
             create_dataset data 0 = Ok d0 ->
             _transform K m data d0 B whiten = Ok o ->
             output_lengths o = lengths_of data).
  { intros d0 m o Hd Ht.
    destruct (_transform_rows K _ _ _ _ _ _ Hd Ht) as (t & td & _ & _ & Hl & ->).
    apply reassemble_lengths, Hl. }
  split; [|split].
  - intros km sym. split.
    + intros H.
      apply tica_Ok in H as (d0 & dlag & trainl & testl & m & Hd & Hlag & Hs & Hf & Ht).
      exists d0, dlag, trainl, testl, m.
      pose proof (create_dataset_length _ _ _ Hlag).
      pose proof (Hlen _ _ _ Hd Ht). repeat split; assumption.
    + intros (d0 & dlag & trainl & testl & m & Hd & Hlag & _ & Hs & Hf & Ht & _).
      eapply tica_intro; eassumption.
  - intros n kw. split.
    + intros H.
      apply ae_Ok in H
        as (sz & d0 & dlag & trainl & testl & m0 & m & Hsz & Hd & Hlag & Hs & Hn & Hf & Ht).
      exists sz, d0, dlag, trainl, testl, m0, m.
      pose proof (create_dataset_length _ _ _ Hlag).
      pose proof (Hlen _ _ _ Hd Ht). repeat split; assumption.
    + intros (sz & d0 & dlag & trainl & testl & m0 & m
              & Hsz & Hd & Hlag & _ & Hs & Hn & Hf & Ht & _).
      eapply ae_intro; eassumption.
  - intros m t Hc Ht Hw.
    pose proof (create_dataset_0_Ok data Hc) as Hd.
    destruct (_transform_returns K m data _ B whiten t Hd Ht Hw) as [o Ho].
    eexists _, o. split; [exact Hd|]. split; [exact Ho|].
    apply (Hlen _ _ _ Hd Ho).
Qed.

Lemma transform_uses_lag_0_witness :
  (tica demo_kernels demo_data (Some 1) 1 true false None 2%positive false []
   = Ok (OutList [[[-12; -11]; [-10; -9]]; [[-8; -7]; [-6; -5]; [-4; -3]]]%Z,
         (-13)%Z, None) /\
   output_lengths (OutList [[[-12; -11]; [-10; -9]]; [[-8; -7]; [-6; -5]; [-4; -3]]]%Z)
   = lengths_of demo_data) /\
  (ae demo_kernels demo_data (Some 1) 1 3 None 2%positive false ∅ []
   = Ok (OutList [[[-5; -4]; [-3; -2]]; [[-1; 0]; [1; 2]; [3; 4]]]%Z, 2%Z, None) /\
   output_lengths (OutList [[[-5; -4]; [-3; -2]]; [[-1; 0]; [1; 2]; [3; 4]]]%Z)
   = lengths_of demo_data).
Proof.
  split.
  - assert (E : tica demo_kernels demo_data (Some 1) 1 true false None 2%positive false []
                = Ok (OutList [[[-12; -11]; [-10; -9]]; [[-8; -7]; [-6; -5]; [-4; -3]]]%Z,
                      (-13)%Z, None)) by (vm_compute; reflexivity).
    split; [exact E|].
    destruct (proj1 (proj1 (transform_uses_lag_0 demo_kernels demo_data (Some 1) 1 None
                              2%positive false [] _ _ _) true false) E)
      as (d0 & dlag & trl & tel & m & _ & _ & _ & _ & _ & _ & Hlen).
    exact Hlen.
  - assert (E : ae demo_kernels demo_data (Some 1) 1 3 None 2%positive false ∅ []
                = Ok (OutList [[[-5; -4]; [-3; -2]]; [[-1; 0]; [1; 2]; [3; 4]]]%Z,
                      2%Z, None)) by (vm_compute; reflexivity).
    split; [exact E|].
    destruct (proj1 (proj1 (proj2 (transform_uses_lag_0 demo_kernels demo_data (Some 1) 1
                                     None 2%positive false [] _ _ _)) 3 ∅) E)
      as (sz & d0 & dlag & trl & tel & m0 & m & _ & _ & _ & _ & _ & _ & _ & _ & Hlen).
    exact Hlen.
Defined.





(** ** Permutations, selection and the order of a pass *)

Lemma draw_order_Permutation (n : nat) (draws pool : list nat) :
  length pool = n -> Permutation (draw_order n draws pool) pool.
Proof.
  revert draws pool. induction n as [|n IH]; intros draws pool Hn.
  - destruct pool; [reflexivity | discriminate].
  - cbn [draw_order].
    assert (Hi : hd 0 draws mod length pool < length pool)
      by (apply Nat.mod_upper_bound; lia).
    destruct (lookup_lt_is_Some_2 pool _ Hi) as [x Hx]. rewrite Hx.
    etransitivity; [|symmetry; apply (delete_Permutation pool _ x Hx)].
    constructor. apply IH.
    pose proof (length_delete pool _ (ex_intro _ x Hx)). lia.
Qed.

Lemma random_permutation_Permutation (draws : list nat) (n : nat) :
  Permutation (random_permutation draws n) (seq 0 n).
Proof. apply draw_order_Permutation, length_seq. Qed.

Lemma select_length {X : Type} (ds : list X) (idx : list nat) :
  Forall (fun i => i < length ds) idx -> length (select ds idx) = length idx.
Proof.
  unfold select. induction 1 as [|i idx Hi _ IH]; [reflexivity|].
  simpl. destruct (lookup_lt_is_Some_2 ds i Hi) as [x ->]. simpl. f_equal. exact IH.
Qed.

Lemma select_seq_app {X : Type} (pre l : list X) :
  select (pre ++ l) (seq (length pre) (length l)) = l.
Proof.
  unfold select. revert pre. induction l as [|x l IH]; intros pre; [reflexivity|].
  simpl. rewrite list_lookup_middle by reflexivity. simpl. f_equal.
  specialize (IH (pre ++ [x])).
  rewrite <- app_assoc, length_app in IH. simpl in IH.
  rewrite Nat.add_1_r in IH. exact IH.
Qed.

Lemma select_seq {X : Type} (ds : list X) : select ds (seq 0 (length ds)) = ds.
Proof. apply (select_seq_app [] ds). Qed.

Lemma select_Permutation {X : Type} (ds : list X) (perm : list nat) :
  Permutation perm (seq 0 (length ds)) -> Permutation (select ds perm) ds.
Proof.
  intros H. unfold select. rewrite H. fold (select ds (seq 0 (length ds))).
  rewrite select_seq. reflexivity.
Qed.

Lemma pass_sequential {X : Type} (draws : list nat) (ld : DataLoader X) :
  pass false draws ld = batches ld.
Proof.
  unfold pass, sampler. rewrite select_seq. destruct ld; reflexivity.
Qed.

Lemma whitened_rows_Forall2 {F model : Type} (K : Kernels F model) (m : model)
    (whiten : bool) (xs t td : list (list F)) :
  map_result (encode K m) xs = Ok t ->
  (if whiten then whiten_data K t = Ok td else td = t) ->
  Forall2
    (fun x y =>
       exists e,
         encode K m x = Ok e /\
         y = if whiten then zip_with (fdiv K) e (column_stds K t) else e)
    xs td.
Proof.
  intros Ht Hw. apply map_result_Forall2 in Ht.
  destruct whiten.
  - apply whiten_data_Ok in Hw as [_ ->]. apply Forall2_fmap_r.
    eapply Forall2_impl; [exact Ht|]. intros x e He.
    exists e. split; [exact He | reflexivity].
  - subst td. eapply Forall2_impl; [exact Ht|]. intros x e He.
    exists e. split; [exact He | reflexivity].
Qed.

(** C3. The loader [_transform] iterates yields the lag-0 dataset in
    consecutive batches: batch [k] is the slice [k*B .. k*B+B) of the dataset,
    the batches put end to end are the dataset, and a pass yields these same
    batches whatever random numbers it is given, while a shuffling loader
    would not.  So [_transform], with or without whitening, fails only when a
    row does not encode or the whitening fails, and otherwise returns one row
    per input row, in the order of the input: the encoded row, divided by the
    pooled column deviations when whitening. *)
Theorem transform_keeps_row_order {F model : Type} (K : Kernels F model)
    (m : model) (data : pydata F) (d0 : list (sample_pair F)) (B : positive) :
  create_dataset data 0 = Ok d0 ->
  d0 = (fun x => (x, x)) <$> all_rows data /\
  concat (batches (mk_DataLoader d0 B)) = d0 /\
  (forall k,
      batches (mk_DataLoader d0 B) !! k =
      if k * Pos.to_nat B <? length d0
      then Some (slice_rows (k * Pos.to_nat B) (k * Pos.to_nat B + Pos.to_nat B) d0)
      else None) /\
  (forall fuel,
      length d0 <= fuel ->
      loader_run fuel (mk_DataLoader d0 B) (loader_iter (mk_DataLoader d0 B))
      = batches (mk_DataLoader d0 B)) /\
  (forall draws, pass false draws (mk_DataLoader d0 B) = batches (mk_DataLoader d0 B)) /\
  (pass true [0] (mk_DataLoader [10; 20]%Z 1%positive) = [[10]; [20]]%Z /\
   pass true [1] (mk_DataLoader [10; 20]%Z 1%positive) = [[20]; [10]]%Z) /\
  transform K m (mk_DataLoader d0 B) = map_result (encode K m) (all_rows data) /\
  (forall whiten : bool,
      _transform K m data d0 B whiten
      = (do t <- map_result (encode K m) (all_rows data);
         do td <- (if whiten then whiten_data K t else Ok t);
         Ok (reassemble data td))) /\
  (forall (whiten : bool) t,
      map_result (encode K m) (all_rows data) = Ok t ->
      (whiten = true -> existsb (is_zero K) (column_stds K t) = false) ->
      exists out,
        _transform K m data d0 B whiten = Ok out /\
        length (output_rows out) = length (all_rows data) /\
        Forall2
          (fun x y =>
             exists e,
               encode K m x = Ok e /\
               y = if whiten then zip_with (fdiv K) e (column_stds K t) else e)
          (all_rows data) (output_rows out)) /\
  (forall (whiten : bool) out,
      _transform K m data d0 B whiten = Ok out ->
      exists t,
        map_result (encode K m) (all_rows data) = Ok t /\
        Forall2
          (fun x y =>
             exists e,
               encode K m x = Ok e /\
               y = if whiten then zip_with (fdiv K) e (column_stds K t) else e)
          (all_rows data) (output_rows out)).
Proof.
  intros Hd.
  assert (Hinv : forall (whiten : bool) out,
             _transform K m data d0 B whiten = Ok out ->
             exists t,
               map_result (encode K m) (all_rows data) = Ok t /\
               Forall2
                 (fun x y =>
                    exists e,
                      encode K m x = Ok e /\
                      y = if whiten then zip_with (fdiv K) e (column_stds K t) else e)
                 (all_rows data) (output_rows out)).
  { intros whiten out Ht.
    destruct (_transform_rows K _ _ _ _ _ _ Hd Ht) as (t & td & Htr & Hw & Hl & ->).
    rewrite (transform_data_0 K m _ _ B Hd) in Htr.
    exists t. split; [exact Htr|].
    rewrite (reassemble_rows _ _ Hl).
    apply (whitened_rows_Forall2 K m whiten _ t td Htr Hw). }
  split; [apply create_dataset_0, Hd|].
  split; [apply (batches_concat (mk_DataLoader d0 B))|].
  split; [intros k; apply (batches_lookup (mk_DataLoader d0 B))|].
  split; [intros fuel; apply (batches_restart (mk_DataLoader d0 B))|].
  split; [intros draws; apply pass_sequential|].
  split; [split; vm_compute; reflexivity|].
  split; [apply transform_data_0, Hd|].
  split; [intros whiten; apply _transform_normal, Hd|].
  split; [|exact Hinv].
  intros whiten t Ht Hw.
  destruct (_transform_returns K m data d0 B whiten t Hd Ht Hw) as [out Hout].
  exists out. split; [exact Hout|].
  destruct (Hinv whiten out Hout) as (t' & Ht' & HF).
  rewrite Ht in Ht'. injection Ht' as <-.
  split; [|exact HF].
  symmetry. eapply Forall2_length, HF.
Qed.

Lemma transform_keeps_row_order_witness :
  exists out,
    _transform demo_kernels 0%Z demo_data
      [([1; 2], [1; 2]); ([3; 4], [3; 4]); ([5; 6], [5; 6]); ([7; 8], [7; 8]);
       ([9; 10], [9; 10])]%Z 2%positive true = Ok out /\
    length (output_rows out) = length (all_rows demo_data) /\
    Forall2
      (fun x y =>
         exists e,
           encode demo_kernels 0%Z x = Ok e /\
           y = zip_with (fdiv demo_kernels) e
                 (column_stds demo_kernels
                    [[1; 2]; [3; 4]; [5; 6]; [7; 8]; [9; 10]]%Z))
      (all_rows demo_data) (output_rows out).
Proof.
  pose proof (transform_keeps_row_order demo_kernels 0%Z demo_data
    [([1; 2], [1; 2]); ([3; 4], [3; 4]); ([5; 6], [5; 6]); ([7; 8], [7; 8]);
     ([9; 10], [9; 10])]%Z 2%positive eq_refl) as H.
  destruct H as (_ & _ & _ & _ & _ & _ & _ & _ & Hret & _).
  apply (Hret true [[1; 2]; [3; 4]; [5; 6]; [7; 8]; [9; 10]]%Z).
  - vm_compute. reflexivity.
  - intros _. vm_compute. reflexivity.
Defined.

(** ** Fitting without a validation loader *)

Lemma fit_linear_None {F model : Type} (K : Kernels F model) est ld dim m trl tel :
  fit_linear K est ld dim None = Ok (m, trl, tel) -> tel = None.
Proof.
  unfold fit_linear. intros H. inv_bind H. destruct a as [m' trl'].
  injection H as _ _ <-. reflexivity.
Qed.

Lemma fit_ae_None {F model : Type} (K : Kernels F model) m0 ld n m trl tel :
  fit_ae K m0 ld n None = Ok (m, trl, tel) -> tel = None.
Proof.
  unfold fit_ae. intros H. inv_bind H. destruct a as [m' ls].
  injection H as _ _ <-. reflexivity.
Qed.

Lemma fit_linear_None_iff {F model : Type} (K : Kernels F model) est ld dim
    (m : model) (trl : F) (tel : option F) :
  fit_linear K est ld dim None = Ok (m, trl, tel) <->
  tel = None /\ solve K est dim (accumulate K ld) = Ok (m, trl).
Proof.
  unfold fit_linear. split.
  - intros H. inv_bind H. destruct a as [m' trl'].
    injection H as -> -> <-. split; [reflexivity | exact Ha].
  - intros [-> ->]. reflexivity.
Qed.

(** C4. With [validation_split=None] no split is made.  A call returns
    exactly when the fit on the loader of the whole dataset (lag 0 for [pca],
    the lagged one for [tica] and [ae]) with no test loader returns, and
    [_transform] does; the [train_loss] returned is the scalar that fit
    gives, for [pca] and [tica] the solver's on the statistics of all
    samples; [test_loss] is absent; and the numbers the splitter would draw
    play no part. *)
Theorem no_validation_no_split {F model : Type} (K : Kernels F model)
    (data : pydata F) (dim : option nat) (B : positive) (whiten : bool)
    (perm : list nat) (out : output F) (trl : F) (tel : option F) :
  (pca K data dim None B whiten perm = Ok (out, trl, tel) <->
   tel = None /\
   exists d0 m,
     create_dataset data 0 = Ok d0 /\
     solve K PCA dim (accumulate K (mk_DataLoader d0 B)) = Ok (m, trl) /\
     fit_linear K PCA (mk_DataLoader d0 B) dim None = Ok (m, trl, None) /\
     _transform K m data d0 B whiten = Ok out) /\
  (forall lag km sym,
     tica K data dim lag km sym None B whiten perm = Ok (out, trl, tel) <->
     tel = None /\
     exists d0 dlag m,
       create_dataset data 0 = Ok d0 /\
       create_dataset data lag = Ok dlag /\
       solve K (TICA km sym) dim (accumulate K (mk_DataLoader dlag B)) = Ok (m, trl) /\
       fit_linear K (TICA km sym) (mk_DataLoader dlag B) dim None = Ok (m, trl, None) /\
       _transform K m data d0 B whiten = Ok out) /\
  (forall lag n_epochs kwargs,
     ae K data dim lag n_epochs None B whiten kwargs perm = Ok (out, trl, tel) <->
     tel = None /\
     exists size d0 dlag m0 m,
       input_size data = Ok size /\
       create_dataset data 0 = Ok d0 /\
       create_dataset data lag = Ok dlag /\
       ae_new K size dim (ae_args kwargs) = Ok m0 /\
       fit_ae K m0 (mk_DataLoader dlag B) n_epochs None = Ok (m, trl, None) /\
       _transform K m data d0 B whiten = Ok out) /\
  (forall perm' lag km sym n_epochs kwargs,
     pca K data dim None B whiten perm' = pca K data dim None B whiten perm /\
     tica K data dim lag km sym None B whiten perm'
       = tica K data dim lag km sym None B whiten perm /\
     ae K data dim lag n_epochs None B whiten kwargs perm'
       = ae K data dim lag n_epochs None B whiten kwargs perm).
Proof.
  split; [|split; [|split]].
  - split.
    + intros H. apply pca_Ok in H as (d0 & trainl & testl & m & Hd & Hs & Hf & Ht).
      injection Hs as <- <-.
      pose proof (proj1 (proj1 (fit_linear_None_iff _ _ _ _ _ _ _) Hf)) as ->.
      split; [reflexivity|]. exists d0, m.
      pose proof (proj2 (proj1 (fit_linear_None_iff _ _ _ _ _ _ _) Hf)). auto.
    + intros (-> & d0 & m & Hd & _ & Hf & Ht).
      eapply pca_intro; [exact Hd | reflexivity | exact Hf | exact Ht].
  - intros lag km sym. split.
    + intros H.
      apply tica_Ok in H as (d0 & dlag & trainl & testl & m & Hd & Hl & Hs & Hf & Ht).
      injection Hs as <- <-.
      pose proof (proj1 (proj1 (fit_linear_None_iff _ _ _ _ _ _ _) Hf)) as ->.
      split; [reflexivity|]. exists d0, dlag, m.
      pose proof (proj2 (proj1 (fit_linear_None_iff _ _ _ _ _ _ _) Hf)). auto.
    + intros (-> & d0 & dlag & m & Hd & Hl & _ & Hf & Ht).
      eapply tica_intro; [exact Hd | exact Hl | reflexivity | exact Hf | exact Ht].
  - intros lag n kw. split.
    + intros H. apply ae_Ok in H
        as (sz & d0 & dlag & trainl & testl & m0 & m & Hsz & Hd & Hl & Hs & Hn & Hf & Ht).
      injection Hs as <- <-.
      pose proof (fit_ae_None _ _ _ _ _ _ _ Hf) as ->.
      split; [reflexivity|]. exists sz, d0, dlag, m0, m. auto 7.
    + intros (-> & sz & d0 & dlag & m0 & m & Hsz & Hd & Hl & Hn & Hf & Ht).
      eapply ae_intro;
        [exact Hsz | exact Hd | exact Hl | reflexivity | exact Hn | exact Hf | exact Ht].
  - intros. repeat split.
Qed.

Lemma no_validation_no_split_witness :
  (pca demo_kernels demo_data (Some 1) None 2%positive false []
   = Ok (OutList [[[-24; -23]; [-22; -21]]; [[-20; -19]; [-18; -17]; [-16; -15]]]%Z,
         (-25)%Z, None) /\
   exists d0 m,
     create_dataset demo_data 0 = Ok d0 /\
     solve demo_kernels PCA (Some 1) (accumulate demo_kernels (mk_DataLoader d0 2%positive))
       = Ok (m, (-25)%Z)) /\
  (tica demo_kernels demo_data (Some 1) 1 true false None 2%positive false []
   = Ok (OutList [[[-12; -11]; [-10; -9]]; [[-8; -7]; [-6; -5]; [-4; -3]]]%Z,
         (-13)%Z, None) /\
   exists dlag m,
     create_dataset demo_data 1 = Ok dlag /\
     solve demo_kernels (TICA true false) (Some 1)
       (accumulate demo_kernels (mk_DataLoader dlag 2%positive)) = Ok (m, (-13)%Z)) /\
  (ae demo_kernels demo_data (Some 1) 1 3 None 2%positive false ∅ []
   = Ok (OutList [[[-5; -4]; [-3; -2]]; [[-1; 0]; [1; 2]; [3; 4]]]%Z, 2%Z, None) /\
   exists dlag m0 m,
     create_dataset demo_data 1 = Ok dlag /\
     fit_ae demo_kernels m0 (mk_DataLoader dlag 2%positive) 3 None = Ok (m, 2%Z, None)).
Proof.
  split; [|split].
  - assert (E : pca demo_kernels demo_data (Some 1) None 2%positive false []
                = Ok (OutList [[[-24; -23]; [-22; -21]];
                               [[-20; -19]; [-18; -17]; [-16; -15]]]%Z, (-25)%Z, None))
      by (vm_compute; reflexivity).
    split; [exact E|].
    destruct (proj1 (proj1 (no_validation_no_split demo_kernels demo_data (Some 1)
                              2%positive false [] _ _ _)) E)
      as (_ & d0 & m & Hd & Hs & _ & _).
    exists d0, m. split; assumption.
  - assert (E : tica demo_kernels demo_data (Some 1) 1 true false None 2%positive false []
                = Ok (OutList [[[-12; -11]; [-10; -9]];
                               [[-8; -7]; [-6; -5]; [-4; -3]]]%Z, (-13)%Z, None))
      by (vm_compute; reflexivity).
    split; [exact E|].
    destruct (proj1 (proj1 (proj2 (no_validation_no_split demo_kernels demo_data (Some 1)
                                     2%positive false [] _ _ _)) 1 true false) E)
      as (_ & d0 & dlag & m & _ & Hl & Hs & _ & _).
    exists dlag, m. split; assumption.
  - assert (E : ae demo_kernels demo_data (Some 1) 1 3 None 2%positive false ∅ []
                = Ok (OutList [[[-5; -4]; [-3; -2]]; [[-1; 0]; [1; 2]; [3; 4]]]%Z,
                      2%Z, None))
      by (vm_compute; reflexivity).
    split; [exact E|].
    destruct (proj1 (proj1 (proj2 (proj2 (no_validation_no_split demo_kernels demo_data
                                            (Some 1) 2%positive false [] _ _ _)))
                       1 3 ∅) E)
      as (_ & sz & d0 & dlag & m0 & m & _ & _ & Hl & _ & Hf & _).
    exists dlag, m0, m. split; assumption.
Defined.

(** ** The partition made by the splitter *)

Lemma round_nearest_bounds (q : Q) :
  (q - (1 # 2) < inject_Z (round_nearest q))%Q /\
  (inject_Z (round_nearest q) <= q + (1 # 2))%Q.
Proof.
  unfold round_nearest. split.
  - pose proof (Qlt_floor (q + (1 # 2))) as H.
    rewrite inject_Z_plus in H. change (inject_Z 1) with 1%Q in H.
    generalize dependent (inject_Z (Qfloor (q + (1 # 2)))). intros z H. lra.
  - apply Qfloor_le.
Qed.

Lemma valid_fraction_true (f : Q) : (0 < f)%Q -> (f < 1)%Q -> valid_fraction f = true.
Proof.
  intros H0 H1. unfold valid_fraction.
  destruct (Qlt_le_dec 0 f) as [_|Hle]; [|exfalso; lra].
  destruct (Qlt_le_dec f 1) as [_|Hle]; [|exfalso; lra].
  reflexivity.
Qed.

Lemma random_split_indices_Ok (draws : list nat) (n : nat) (f : Q) :
  (0 < f)%Q -> (f < 1)%Q -> 0 < n_active f n < n ->
  random_split_indices draws n f
  = Ok (take (n_active f n) (random_permutation draws n),
        drop (n_active f n) (random_permutation draws n)).
Proof.
  intros H0 H1 [Hk0 Hkn]. unfold random_split_indices.
  rewrite (valid_fraction_true f H0 H1).
  destruct (Nat.ltb_spec 0 (n_active f n)); [|lia].
  destruct (Nat.ltb_spec (n_active f n) n); [|lia].
  reflexivity.
Qed.

Lemma random_split_indices_empty (draws : list nat) (n : nat) (f : Q) :
  n_active f n = 0 \/ n <= n_active f n ->
  random_split_indices draws n f = Err InvalidFractionError.
Proof.
  intros H. unfold random_split_indices.
  destruct (valid_fraction f); [|reflexivity].
  destruct (Nat.ltb_spec 0 (n_active f n)); [|reflexivity].
  destruct (Nat.ltb_spec (n_active f n) n); [lia | reflexivity].
Qed.

(** C5 (as the splitter is specified). For a fraction 0 < f < 1 the splitter
    fails with [InvalidFractionError] when round(f * N) is 0 or at least N,
    that is, when a subset would be empty.  Otherwise, whatever random numbers
    it draws, it returns the validation subset first and the training subset
    second; the validation subset has round(f * N) elements, the sizes add up
    to N, the two index lists are disjoint and together hold every index
    below N exactly once, and the two subsets together are the dataset up to
    order.  [pca], [tica] and [ae] then return exactly when [fit], given the
    second subset to train on and the first as [test_loader], returns and
    [_transform] does. *)
Theorem split_is_partition {F model : Type} (K : Kernels F model)
    (ds : list (sample_pair F)) (f : Q) (draws : list nat) :
  (0 < f)%Q -> (f < 1)%Q ->
  (n_active f (length ds) = 0 \/ length ds <= n_active f (length ds) ->
   random_split draws ds f = Err InvalidFractionError) /\
  (0 < n_active f (length ds) < length ds ->
   exists active rest,
    random_split_indices draws (length ds) f = Ok (active, rest) /\
    random_split draws ds f = Ok (select ds active, select ds rest) /\
    length (select ds active) = Z.to_nat (round_nearest (f * inject_Z (Z.of_nat (length ds)))) /\
    (f * inject_Z (Z.of_nat (length ds)) - (1 # 2)
       < inject_Z (round_nearest (f * inject_Z (Z.of_nat (length ds)))))%Q /\
    (inject_Z (round_nearest (f * inject_Z (Z.of_nat (length ds))))
       <= f * inject_Z (Z.of_nat (length ds)) + (1 # 2))%Q /\
    length (select ds active) + length (select ds rest) = length ds /\
    0 < length (select ds active) /\
    0 < length (select ds rest) /\
    NoDup (active ++ rest) /\
    (forall i, i < length ds <-> i ∈ active ++ rest) /\
    (forall i, i ∈ active -> i ∈ rest -> False) /\
    Permutation (select ds active ++ select ds rest) ds /\
    (forall data dim B whiten out trl tel,
        create_dataset data 0 = Ok ds ->
        (pca K data dim (Some f) B whiten draws = Ok (out, trl, tel) <->
         exists m,
           fit_linear K PCA (mk_DataLoader (select ds rest) B) dim
             (Some (mk_DataLoader (select ds active) B)) = Ok (m, trl, tel) /\
           _transform K m data ds B whiten = Ok out)) /\
    (forall data dim lag km sym B whiten out trl tel,
        create_dataset data lag = Ok ds ->
        (tica K data dim lag km sym (Some f) B whiten draws = Ok (out, trl, tel) <->
         exists d0 m,
           create_dataset data 0 = Ok d0 /\
           fit_linear K (TICA km sym) (mk_DataLoader (select ds rest) B) dim
             (Some (mk_DataLoader (select ds active) B)) = Ok (m, trl, tel) /\
           _transform K m data d0 B whiten = Ok out)) /\
    (forall data dim lag n_epochs B whiten kwargs out trl tel,
        create_dataset data lag = Ok ds ->
        (ae K data dim lag n_epochs (Some f) B whiten kwargs draws = Ok (out, trl, tel) <->
         exists size d0 m0 m,
           input_size data = Ok size /\
           create_dataset data 0 = Ok d0 /\
           ae_new K size dim (ae_args kwargs) = Ok m0 /\
           fit_ae K m0 (mk_DataLoader (select ds rest) B) n_epochs
             (Some (mk_DataLoader (select ds active) B)) = Ok (m, trl, tel) /\
           _transform K m data d0 B whiten = Ok out))).
Proof.
  intros H0 H1. split.
  { intros He. unfold random_split.
    rewrite (random_split_indices_empty draws _ f He). reflexivity. }
  intros Hk.
  set (n := length ds) in *. set (k := n_active f n) in *.
  set (perm := random_permutation draws n).
  assert (Hperm : Permutation perm (seq 0 n))
    by apply random_permutation_Permutation.
  assert (Hlen : length perm = n) by (rewrite Hperm; apply length_seq).
  assert (Hnd : NoDup perm) by (rewrite Hperm; apply NoDup_seq).
  assert (Hin : forall i, i ∈ perm <-> i < n).
  { intros i. rewrite Hperm, elem_of_seq. lia. }
  assert (Hidx : random_split_indices draws n f = Ok (take k perm, drop k perm))
    by (apply random_split_indices_Ok; assumption).
  assert (Hsplit : random_split draws ds f
                   = Ok (select ds (take k perm), select ds (drop k perm))).
  { unfold random_split. fold n. rewrite Hidx. reflexivity. }
  assert (Hloaders : forall B,
             split_loaders ds (Some f) B draws
             = Ok (mk_DataLoader (select ds (drop k perm)) B,
                   Some (mk_DataLoader (select ds (take k perm)) B))).
  { intros B. unfold split_loaders. rewrite Hsplit. reflexivity. }
  assert (Hbound : Forall (fun i => i < n) perm).
  { apply Forall_forall. intros i Hi. apply Hin. exact Hi. }
  assert (Hla : length (select ds (take k perm)) = k).
  { rewrite select_length by (apply Forall_take, Hbound).
    rewrite length_take. lia. }
  assert (Hlr : length (select ds (drop k perm)) = n - k).
  { rewrite select_length by (apply Forall_drop, Hbound).
    rewrite length_drop. lia. }
  exists (take k perm), (drop k perm).
  rewrite take_drop.
  split; [exact Hidx|]. split; [exact Hsplit|]. split; [exact Hla|].
  split; [apply round_nearest_bounds|]. split; [apply round_nearest_bounds|].
  split; [lia|]. split; [lia|]. split; [lia|]. split; [exact Hnd|].
  split; [intros i; symmetry; apply Hin|].
  split.
  { intros i Ha Hr. rewrite <- (take_drop k perm) in Hnd.
    apply NoDup_app in Hnd as (_ & Hdisj & _). exact (Hdisj i Ha Hr). }
  split.
  { unfold select. rewrite <- omap_app, take_drop. apply select_Permutation, Hperm. }
  split; [|split].
  - intros data dim B whiten out trl tel Hd. split.
    + intros H. apply pca_Ok in H as (d0 & trainl & testl & m & Hd' & Hs & Hf & Ht).
      rewrite Hd in Hd'. injection Hd' as <-.
      rewrite Hloaders in Hs. injection Hs as <- <-. eauto.
    + intros (m & Hf & Ht).
      eapply pca_intro; [exact Hd | apply Hloaders | exact Hf | exact Ht].
  - intros data dim lag km sym B whiten out trl tel Hd. split.
    + intros H.
      apply tica_Ok in H as (d0 & dlag & trainl & testl & m & Hd0 & Hd' & Hs & Hf & Ht).
      rewrite Hd in Hd'. injection Hd' as <-.
      rewrite Hloaders in Hs. injection Hs as <- <-. eauto.
    + intros (d0 & m & Hd0 & Hf & Ht).
      eapply tica_intro; [exact Hd0 | exact Hd | apply Hloaders | exact Hf | exact Ht].
  - intros data dim lag n_epochs B whiten kwargs out trl tel Hd. split.
    + intros H. apply ae_Ok in H
        as (sz & d0 & dlag & trainl & testl & m0 & m & Hsz & Hd0 & Hd' & Hs & Hn & Hf & Ht).
      rewrite Hd in Hd'. injection Hd' as <-.
      rewrite Hloaders in Hs. injection Hs as <- <-.
      exists sz, d0, m0, m. auto.
    + intros (sz & d0 & m0 & m & Hsz & Hd0 & Hn & Hf & Ht).
      eapply ae_intro;
        [exact Hsz | exact Hd0 | exact Hd | apply Hloaders | exact Hn | exact Hf | exact Ht].
Qed.

Lemma split_is_partition_witness :
  pca demo_kernels demo_data (Some 1) (Some (2 # 5)) 2%positive false [3; 1; 4; 0; 2]
  = Ok (OutList [[[-14; -13]; [-12; -11]]; [[-10; -9]; [-8; -7]; [-6; -5]]]%Z,
        (-15)%Z, Some (-5)%Z) /\
  exists active rest,
    random_split_indices [3; 1; 4; 0; 2] 5 (2 # 5) = Ok (active, rest) /\
    active = [3; 1] /\
    rest = [2; 0; 4] /\
    NoDup (active ++ rest) /\
    exists m,
      fit_linear demo_kernels PCA
        (mk_DataLoader (select ((fun x => (x, x)) <$> all_rows demo_data) rest) 2%positive)
        (Some 1)
        (Some (mk_DataLoader (select ((fun x => (x, x)) <$> all_rows demo_data) active)
                 2%positive))
      = Ok (m, (-15)%Z, Some (-5)%Z).
Proof.
  assert (E : pca demo_kernels demo_data (Some 1) (Some (2 # 5)) 2%positive false
                [3; 1; 4; 0; 2]
              = Ok (OutList [[[-14; -13]; [-12; -11]]; [[-10; -9]; [-8; -7]; [-6; -5]]]%Z,
                    (-15)%Z, Some (-5)%Z)) by (vm_compute; reflexivity).
  split; [exact E|].
  destruct (split_is_partition demo_kernels
              ((fun x => (x, x)) <$> all_rows demo_data) (2 # 5) [3; 1; 4; 0; 2])
    as (_ & Hok); [reflexivity | reflexivity |].
  destruct Hok as (active & rest & Hidx & _ & _ & _ & _ & _ & _ & _ & Hnd & _ & _ & _
                   & Hpca & _).
  { vm_compute. split; apply le_n || (repeat constructor). }
  exists active, rest. split; [exact Hidx|].
  split; [injection Hidx as <- _; reflexivity|].
  split; [injection Hidx as _ <-; reflexivity|].
  split; [exact Hnd|].
  destruct (proj1 (Hpca demo_data (Some 1) 2%positive false _ _ _ eq_refl) E)
    as (m & Hf & _).
  exists m. exact Hf.
Defined.

(** C5, as stated, fails: for N = 4 and f = 9/10, a fraction inside (0, 1),
    round(f * N) = 4 leaves no training sample and the splitter fails. *)
Lemma split_fails_on_empty_subset :
  valid_fraction (9 # 10) = true /\
  n_active (9 # 10) 4 = 4 /\
  random_split [] [10; 20; 30; 40]%Z (9 # 10) = Err InvalidFractionError.
Proof. repeat split. Qed.

(** ** The autoencoder's keyword dictionary *)

Lemma ae_args_lookup (kwargs : gmap string pyval) (k : string) :
  ae_args kwargs !! k =
  match kwargs !! k with
  | Some v => Some v
  | None => ae_defaults !! k
  end.
Proof.
  unfold ae_args. rewrite lookup_union.
  destruct (kwargs !! k) as [v|], (ae_defaults !! k); reflexivity.
Qed.

Lemma ae_defaults_dom : dom ae_defaults = list_to_set ae_field_names.
Proof. unfold ae_defaults. rewrite dom_list_to_map_L. reflexivity. Qed.

(** C6 (as the code has it). The configuration of [ae] is a dictionary: its
    eight defaults are those documented, and [update] merges the caller's
    keywords key by key, so that a supplied key replaces its default and the
    other defaults stay; on the eight documented names the result agrees with
    a field-by-field override of a structure.  Every other supplied key is
    kept in the dictionary as well, and the merged dictionary is what [ae]
    hands to the constructor of the autoencoder. *)
Theorem ae_args_is_dict_update {F model : Type} (K : Kernels F model)
    (kwargs : gmap string pyval) :
  ae_defaults !! "hid_size" = Some (PyIntList [100%Z]) /\
  ae_defaults !! "dropout" = Some (PyModule (Dropout (1 # 2))) /\
  ae_defaults !! "activation" = Some (PyModule LeakyReLU) /\
  ae_defaults !! "lat_activation" = Some PyNone /\
  ae_defaults !! "batch_normalization" = Some PyNone /\
  ae_defaults !! "bias" = Some (PyBool true) /\
  ae_defaults !! "lr" = Some (PyFloat (1 # 1000)) /\
  ae_defaults !! "cuda" = Some (PyBool false) /\
  dom ae_defaults = list_to_set ae_field_names /\
  (forall k : string,
      ae_args kwargs !! k =
      match kwargs !! k with
      | Some v => Some v
      | None => ae_defaults !! k
      end) /\
  Forall (fun k => ae_args kwargs !! k = config_to_dict (ae_config_of kwargs) !! k)
         ae_field_names /\
  dom (ae_args kwargs) = dom kwargs ∪ list_to_set ae_field_names /\
  (forall data dim lag n_epochs vs B whiten draws size d0 dlag train_loader test_loader,
      input_size data = Ok size ->
      create_dataset data 0 = Ok d0 ->
      create_dataset data lag = Ok dlag ->
      split_loaders dlag vs B draws = Ok (train_loader, test_loader) ->
      ae K data dim lag n_epochs vs B whiten kwargs draws
      = (do m0 <- ae_new K size dim (ae_args kwargs);
         do '(m, train_loss, test_loss) <- fit_ae K m0 train_loader n_epochs test_loader;
         do out <- _transform K m data d0 B whiten;
         Ok (out, train_loss, test_loss))).
Proof.
  do 8 (split; [reflexivity|]).
  split; [apply ae_defaults_dom|].
  split; [apply ae_args_lookup|].
  split; [|split].
  - unfold ae_field_names. repeat constructor;
      rewrite ae_args_lookup; unfold config_to_dict, ae_config_of, override; simpl;
      match goal with |- context [kwargs !! ?k] => destruct (kwargs !! k) end;
      reflexivity.
  - unfold ae_args. rewrite dom_union_L, ae_defaults_dom. reflexivity.
  - intros data dim lag n vs B whiten draws size d0 dlag trainl testl Hsz Hd Hl Hs.
    unfold ae. rewrite Hsz, Hd, Hl. cbn [bind].
    unfold split_loaders in Hs. rewrite Hs. reflexivity.
Qed.

Lemma ae_args_is_dict_update_witness :
  ae strict_kernels demo_data (Some 1) 1 3 None 2%positive false
    {[ "lr" := PyFloat (1 # 100) ]} []
  = (do m0 <- ae_new strict_kernels 2 (Some 1) (ae_args {[ "lr" := PyFloat (1 # 100) ]});
     do '(m, train_loss, test_loss) <-
       fit_ae strict_kernels m0
         (mk_DataLoader [([1; 2], [3; 4]); ([5; 6], [7; 8]); ([7; 8], [9; 10])]%Z
            2%positive) 3 None;
     do out <- _transform strict_kernels m demo_data
                 ((fun x => (x, x)) <$> all_rows demo_data) 2%positive false;
     Ok (out, train_loss, test_loss)).
Proof.
  pose proof (ae_args_is_dict_update strict_kernels {[ "lr" := PyFloat (1 # 100) ]})
    as (_ & _ & _ & _ & _ & _ & _ & _ & _ & _ & _ & _ & H).
  apply (H demo_data (Some 1) 1 3 None 2%positive false [] 2
           ((fun x => (x, x)) <$> all_rows demo_data)
           [([1; 2], [3; 4]); ([5; 6], [7; 8]); ([7; 8], [9; 10])]%Z);
    reflexivity.
Defined.

(** C6, as stated, fails: a keyword that is none of the eight fields is taken
    into the merged dictionary, which a field-by-field merge would not hold,
    and reaches the constructor: one that knows the eight keywords only
    accepts the call without the keyword and rejects the call with it. *)
Lemma ae_args_accepts_unknown_key :
  ae_defaults !! "verbose" = None /\
  config_to_dict (ae_config_of {[ "verbose" := PyBool true ]}) !! "verbose" = None /\
  ae_args {[ "verbose" := PyBool true ]} !! "verbose" = Some (PyBool true) /\
  ae strict_kernels demo_data (Some 1) 1 3 None 2%positive false ∅ []
    = Ok (OutList [[[-5; -4]; [-3; -2]]; [[-1; 0]; [1; 2]; [3; 4]]]%Z, 2%Z, None) /\
  ae strict_kernels demo_data (Some 1) 1 3 None 2%positive false
    {[ "verbose" := PyBool true ]} [] = Err TypeError.
Proof. repeat split; vm_compute; reflexivity. Qed.

(** C9. For a list of series [ae] reads the encoder's input width off the
    first series alone: the later series, whatever their column counts, do
    not enter, and the constructor is called with that width. *)
Theorem ae_width_from_first_series {F model : Type} (K : Kernels F model)
    (a : ndarray F) (rest : list (ndarray F)) :
  input_size (Multiple (a :: rest)) = Ok (shape1 a) /\
  (forall rest' : list (ndarray F),
      input_size (Multiple (a :: rest')) = input_size (Multiple (a :: rest))) /\
  input_size (Single a) = Ok (shape1 a) /\
  (forall dim lag n_epochs vs B whiten kwargs perm out trl tel,
      ae K (Multiple (a :: rest)) dim lag n_epochs vs B whiten kwargs perm
        = Ok (out, trl, tel) ->
      exists m0, ae_new K (shape1 a) dim (ae_args kwargs) = Ok m0).
Proof.
  repeat split.
  intros dim lag n vs B whiten kwargs perm out trl tel H.
  apply ae_Ok in H as (sz & _ & _ & _ & _ & m0 & _ & Hsz & _ & _ & _ & Hnew & _).
  simpl in Hsz. injection Hsz as <-. eauto.
Qed.

Lemma ae_width_from_first_series_witness :
  exists m0, ae_new demo_kernels (shape1 demo_series_1) (Some 1) (ae_args ∅) = Ok m0.
Proof.
  apply (proj2 (proj2 (proj2
           (ae_width_from_first_series demo_kernels demo_series_1 [demo_series_2])))
           (Some 1) 1 3 None 2%positive true ∅ []
           (OutList [[[-1; -1]; [-1; -1]]; [[-1; 0]; [0; 0]; [0; 1]]]%Z) 2%Z None).
  vm_compute. reflexivity.
Defined.

(** ** Accumulation over batches *)

Section Accumulation.
Context {F model : Type} (K : Kernels F model).
Hypothesis add_assoc :
  forall a b c : stats K, stats_add K a (stats_add K b c) = stats_add K (stats_add K a b) c.
Hypothesis add_zero : forall a : stats K, stats_add K a (stats_zero K) = a.










End Accumulation.

(** ** Results without batches *)

Section NormalForm.
Context {F model : Type} (K : Kernels F model).
Hypothesis add_assoc :
  forall a b c : stats K, stats_add K a (stats_add K b c) = stats_add K (stats_add K a b) c.
Hypothesis add_zero : forall a : stats K, stats_add K a (stats_zero K) = a.





End NormalForm.




(** ** Whitening over the reals *)

Lemma Rsum_cons (x : R) (l : list R) : Rsum (x :: l) = (x + Rsum l)%R.
Proof. reflexivity. Qed.

Lemma Rsum_fmap_scale (g h : R -> R) (c : R) (l : list R) :
  (forall x, g x = (h x * c)%R) -> Rsum (g <$> l) = (Rsum (h <$> l) * c)%R.
Proof.
  intros Hg. induction l as [|x l IH].
  - unfold Rsum. simpl. ring.
  - rewrite !fmap_cons, !Rsum_cons, IH, Hg. ring.
Qed.

Lemma Rsum_scale (s : R) (l : list R) :
  Rsum ((fun x => x / s)%R <$> l) = (Rsum l / s)%R.
Proof.
  rewrite (Rsum_fmap_scale _ (fun x => x) (/ s)%R) by reflexivity.
  rewrite list_fmap_id. reflexivity.
Qed.

Lemma mean_scale (s : R) (l : list R) :
  mean ((fun x => x / s)%R <$> l) = (mean l / s)%R.
Proof.
  unfold mean. rewrite Rsum_scale, length_fmap. unfold Rdiv. ring.
Qed.

Lemma sample_variance_scale (s : R) (l : list R) :
  sample_variance ((fun x => x / s)%R <$> l) = (sample_variance l / (s * s))%R.
Proof.
  unfold sample_variance. rewrite mean_scale, length_fmap, <- list_fmap_compose.
  rewrite (Rsum_fmap_scale _ (fun x => (x - mean l) * (x - mean l))%R (/ (s * s))%R).
  - unfold Rdiv. ring.
  - intros x. unfold compose, Rdiv. rewrite Rinv_mult. ring.
Qed.

Lemma whitened_column_variance (l : list R) :
  std_dev l <> 0%R ->
  sample_variance ((fun x => x / std_dev l)%R <$> l) = 1%R.
Proof.
  intros Hs. rewrite sample_variance_scale. unfold std_dev in *.
  assert (Hpos : (0 < sample_variance l)%R).
  { destruct (Rlt_le_dec 0 (sample_variance l)) as [H|H]; [exact H|].
    exfalso. apply Hs. apply sqrt_neg_0. exact H. }
  rewrite sqrt_sqrt by lra. unfold Rdiv. apply Rinv_r. lra.
Qed.

Lemma column_rescaled {F : Type} (fd : F -> F -> F) (stds : list F) (s : F)
    (j : nat) (t : list (list F)) :
  stds !! j = Some s ->
  column j ((fun r => zip_with fd r stds) <$> t) = (fun x => fd x s) <$> column j t.
Proof.
  intros Hs. unfold column. induction t as [|r t IH]; [reflexivity|].
  rewrite fmap_cons. cbn [omap list_omap]. fold (@omap list _ _ _ (fun r : list F => r !! j)).
  rewrite lookup_zip_with, Hs.
  destruct (r !! j) as [x|]; simpl; rewrite IH; reflexivity.
Qed.

Lemma column_stds_lookup {F model : Type} (K : Kernels F model) (t : list (list F)) (j : nat) :
  j < width t -> column_stds K t !! j = Some (column_std K (column j t)).
Proof.
  intros Hj. unfold column_stds.
  rewrite list_lookup_fmap, lookup_seq_lt by exact Hj. reflexivity.
Qed.

Lemma real_whitening_unit_variance {model : Type} (K : Kernels R model)
    (t w : list (list R)) (j : nat) :
  real_whitening K ->
  whiten_data K t = Ok w ->
  j < width t ->
  sample_variance (column j w) = 1%R.
Proof.
  intros (Hstd & Hdiv & Hzero) Hw Hj.
  apply whiten_data_Ok in Hw as [Hnz ->].
  pose proof (column_stds_lookup K t j Hj) as Hs.
  rewrite (column_rescaled _ _ _ _ _ Hs), Hdiv, Hstd.
  apply whitened_column_variance.
  intros H0.
  assert (Hex : existsb (is_zero K) (column_stds K t) = true).
  { apply existsb_exists. exists (column_std K (column j t)). split.
    - apply list_elem_of_In. apply list_elem_of_lookup. eauto.
    - apply Hzero. rewrite Hstd. exact H0. }
  congruence.
Qed.

Lemma real_kernels_whitening : real_whitening real_kernels.
Proof.
  split; [reflexivity|]. split; [reflexivity|].
  intros s. simpl. destruct (Req_dec_T s 0%R); split; intros; congruence.
Qed.

Lemma pooled_variance : sample_variance [0; 1; 0; 3]%R = 2%R.
Proof. unfold sample_variance, mean, Rsum. simpl. field. Qed.

Lemma pooled_std_nonzero : std_dev [0; 1; 0; 3]%R <> 0%R.
Proof.
  unfold std_dev. rewrite pooled_variance. apply sqrt2_neq_0.
Qed.

Lemma pooled_transform :
  _transform real_kernels tt pooled_data
    ((fun x => (x, x)) <$> all_rows pooled_data) 1%positive true
  = Ok (OutList
          [ [[0 / std_dev [0; 1; 0; 3]]; [1 / std_dev [0; 1; 0; 3]]];
            [[0 / std_dev [0; 1; 0; 3]]; [3 / std_dev [0; 1; 0; 3]]] ]%R).
Proof.
  unfold _transform. rewrite transform_rows. cbn [dataset].
  unfold pooled_data, all_rows. simpl.
  unfold whiten_data, column_stds. simpl.
  destruct (Req_dec_T (std_dev [0; 1; 0; 3]%R) 0%R) as [E|_];
    [destruct (pooled_std_nonzero E)|].
  simpl. reflexivity.
Qed.

Lemma first_series_variance :
  sample_variance
    (column 0 [[0 / std_dev [0; 1; 0; 3]]; [1 / std_dev [0; 1; 0; 3]]]%R) = (1 / 4)%R.
Proof.
  change (column 0 [[0 / std_dev [0; 1; 0; 3]]; [1 / std_dev [0; 1; 0; 3]]]%R)
    with ((fun x => x / std_dev [0; 1; 0; 3])%R <$> [0; 1]%R).
  rewrite sample_variance_scale. unfold std_dev.
  rewrite sqrt_sqrt by (rewrite pooled_variance; lra).
  rewrite pooled_variance. unfold sample_variance, mean, Rsum. simpl. field.
Qed.

(** C10. With [whiten=True] and a list of series, the whitening is computed on
    the whole transformed matrix and the chunks are cut from the whitened
    matrix afterwards: put end to end, the chunks are the whitened matrix, and
    every column of it has sample variance 1 over all series together.  A
    single chunk need not: for the series [0, 1] and [0, 3] the first chunk's
    column has variance 1/4. *)
Theorem whitening_is_pooled {model : Type} (K : Kernels R model) (m : model)
    (l : list (ndarray R)) (d0 : list (sample_pair R)) (B : positive)
    (chunks : list (list (list R))) :
  real_whitening K ->
  create_dataset (Multiple l) 0 = Ok d0 ->
  _transform K m (Multiple l) d0 B true = Ok (OutList chunks) ->
  (exists t,
      transform K m (mk_DataLoader d0 B) = Ok t /\
      whiten_data K t = Ok (concat chunks) /\
      chunks = split_at (shape0 <$> l) (concat chunks) /\
      forall j, j < width t -> sample_variance (column j (concat chunks)) = 1%R) /\
  (real_whitening real_kernels /\
   _transform real_kernels tt pooled_data
     ((fun x => (x, x)) <$> all_rows pooled_data) 1%positive true
   = Ok (OutList
           [ [[0 / std_dev [0; 1; 0; 3]]; [1 / std_dev [0; 1; 0; 3]]];
             [[0 / std_dev [0; 1; 0; 3]]; [3 / std_dev [0; 1; 0; 3]]] ]%R) /\
   sample_variance
     (column 0 [[0 / std_dev [0; 1; 0; 3]]; [1 / std_dev [0; 1; 0; 3]]]%R) = (1 / 4)%R).
Proof.
  intros HK Hd Ht. split.
  - destruct (_transform_rows K _ _ _ _ _ _ Hd Ht) as (t & td & Htr & Hw & Hl & Hout).
    unfold reassemble in Hout. injection Hout as ->.
    unfold lengths_of, series_of in Hl.
    exists t. rewrite (split_at_concat_all _ _ Hl).
    repeat split; try assumption.
    intros j Hj. apply (real_whitening_unit_variance K t td j HK Hw Hj).
  - split; [apply real_kernels_whitening|].
    split; [apply pooled_transform | apply first_series_variance].
Qed.

Lemma whitening_is_pooled_witness :
  exists t,
    transform real_kernels tt
      (mk_DataLoader ((fun x => (x, x)) <$> all_rows pooled_data) 1%positive) = Ok t /\
    whiten_data real_kernels t
      = Ok (concat [ [[0 / std_dev [0; 1; 0; 3]]; [1 / std_dev [0; 1; 0; 3]]];
                     [[0 / std_dev [0; 1; 0; 3]]; [3 / std_dev [0; 1; 0; 3]]] ]%R) /\
    [ [[0 / std_dev [0; 1; 0; 3]]; [1 / std_dev [0; 1; 0; 3]]];
      [[0 / std_dev [0; 1; 0; 3]]; [3 / std_dev [0; 1; 0; 3]]] ]%R
    = split_at (shape0 <$> [pooled_series_1; pooled_series_2])
        (concat [ [[0 / std_dev [0; 1; 0; 3]]; [1 / std_dev [0; 1; 0; 3]]];
                  [[0 / std_dev [0; 1; 0; 3]]; [3 / std_dev [0; 1; 0; 3]]] ]%R) /\
    forall j, j < width t ->
      sample_variance
        (column j (concat [ [[0 / std_dev [0; 1; 0; 3]]; [1 / std_dev [0; 1; 0; 3]]];
                            [[0 / std_dev [0; 1; 0; 3]]; [3 / std_dev [0; 1; 0; 3]]] ]%R))
      = 1%R.
Proof.
  apply (proj1 (whitening_is_pooled real_kernels tt [pooled_series_1; pooled_series_2]
                  ((fun x => (x, x)) <$> all_rows pooled_data) 1%positive _
                  real_kernels_whitening eq_refl pooled_transform)).
Defined.

(** * Further properties of tae/api.py *)

(** ** The slicing loop of [_transform] *)

Lemma slice_rows_length {X : Type} (lo n : nat) (t : list X) :
  length (slice_rows lo (lo + n) t) = n `min` (length t - lo).
Proof.
  unfold slice_rows. rewrite length_take, length_drop. f_equal. lia.
Qed.

Lemma split_at_fmap {X Y : Type} (g : X -> Y) (lengths : list nat) (t : list X) :
  split_at lengths (g <$> t) = (fun c : list X => g <$> c) <$> split_at lengths t.
Proof.
  revert t. induction lengths as [|n lengths IH]; intros t; [reflexivity|].
  cbn [split_at]. rewrite fmap_cons, <- fmap_take, <- fmap_drop, IH. reflexivity.
Qed.

Lemma split_at_parts {X : Type} (ls : list (list X)) :
  split_at (length <$> ls) (concat ls) = ls.
Proof.
  induction ls as [|l ls IH]; [reflexivity|].
  rewrite fmap_cons. cbn [split_at concat].
  rewrite take_app_length, drop_app_length, IH. reflexivity.
Qed.

(** The slicing loop of [_transform] never fails, whatever dataset it is
    handed.  For every matrix the loop returns one array per series, array
    [i] being the slice at the offset of series [i], cut short where the
    matrix ends: it has min(T_i, rows left after the earlier offsets) rows,
    and the arrays put end to end are the first T_1 + ... + T_k rows of the
    matrix.  So once the transform and, when asked for, the whitening have
    returned a matrix, which has one row per sample of [data_0], [_transform]
    returns these arrays; the only errors of [_transform] are those of the
    transform and of the whitening. *)
Theorem transform_chunks_are_clipped {F model : Type} (K : Kernels F model)
    (m : model) (l : list (ndarray F)) (d0 : list (sample_pair F))
    (B : positive) (whiten : bool) :
  (forall td : list (list F),
      length (collect_chunks (shape0 <$> l) td) = length l /\
      concat (collect_chunks (shape0 <$> l) td) = take (sum_list (shape0 <$> l)) td /\
      forall i a, l !! i = Some a ->
        exists c,
          collect_chunks (shape0 <$> l) td !! i = Some c /\
          c = slice_rows (offset (shape0 <$> l) i) (offset (shape0 <$> l) i + shape0 a) td /\
          length c = shape0 a `min` (length td - offset (shape0 <$> l) i)) /\
  (forall t td,
      transform K m (mk_DataLoader d0 B) = Ok t ->
      (if whiten then whiten_data K t else Ok t) = Ok td ->
      length td = length d0 /\
      _transform K m (Multiple l) d0 B whiten
      = Ok (OutList (collect_chunks (shape0 <$> l) td))) /\
  (forall e,
      _transform K m (Multiple l) d0 B whiten = Err e <->
      transform K m (mk_DataLoader d0 B) = Err e \/
      (whiten = true /\
       exists t, transform K m (mk_DataLoader d0 B) = Ok t /\ whiten_data K t = Err e)).
Proof.
  split; [|split].
  - intros td. rewrite collect_chunks_split_at.
    split; [rewrite split_at_length; apply length_fmap|].
    split; [apply split_at_concat|].
    intros i a Hi.
    assert (Hn : (shape0 <$> l) !! i = Some (shape0 a))
      by (rewrite list_lookup_fmap, Hi; reflexivity).
    eexists. split; [apply split_at_lookup, Hn|]. split; [reflexivity|].
    rewrite slice_rows_length. reflexivity.
  - intros t td Ht Hw. split.
    + pose proof (transform_length K _ _ _ Ht) as Hl. simpl in Hl. rewrite <- Hl.
      destruct whiten; [apply (whiten_data_length K _ _ Hw) | congruence].
    + unfold _transform. cbv zeta. rewrite Ht.
      destruct whiten; simpl; simpl in Hw; [rewrite Hw | injection Hw as ->]; reflexivity.
  - intros e. unfold _transform. cbv zeta.
    destruct (transform K m (mk_DataLoader d0 B)) as [t|e'] eqn:Ht;
      destruct whiten; simpl.
    + destruct (whiten_data K t) as [td|e''] eqn:Hw; simpl.
      * split; [discriminate|].
        intros [H | (_ & t' & Ht' & Hw')]; [discriminate|].
        injection Ht' as <-. congruence.
      * split.
        -- intros H. right. split; [reflexivity|]. exists t.
           split; [reflexivity | congruence].
        -- intros [H | (_ & t' & Ht' & Hw')]; [discriminate|].
           injection Ht' as <-. congruence.
    + split; [discriminate|].
      intros [H | (Hf & _)]; discriminate.
    + split; [intros H; left; congruence|].
      intros [H | (_ & t' & Ht' & _)]; [congruence | discriminate].
    + split; [intros H; left; congruence|].
      intros [H | (Hf & _)]; [congruence | discriminate].
Qed.

Lemma transform_chunks_are_clipped_witness :
  length [([1; 2], [1; 2]); ([3; 4], [3; 4]); ([5; 6], [5; 6])]%Z = 3 /\
  _transform demo_kernels 0%Z (Multiple [demo_series_1; demo_series_2])
    [([1; 2], [1; 2]); ([3; 4], [3; 4]); ([5; 6], [5; 6])]%Z 2%positive false
  = Ok (OutList [[[1; 2]; [3; 4]]; [[5; 6]]]%Z).
Proof.
  split; [reflexivity|].
  apply (proj1 (proj2 (transform_chunks_are_clipped demo_kernels 0%Z
                         [demo_series_1; demo_series_2]
                         [([1; 2], [1; 2]); ([3; 4], [3; 4]); ([5; 6], [5; 6])]%Z
                         2%positive false))
           [[1; 2]; [3; 4]; [5; 6]]%Z [[1; 2]; [3; 4]; [5; 6]]%Z);
    reflexivity.
Defined.

(** ** Series boundaries *)

Lemma map_result_concat_parts {A B : Type} (f : A -> result B) (ls : list (list A))
    (t : list B) :
  map_result f (concat ls) = Ok t ->
  exists ys,
    Forall2 (fun l y => map_result f l = Ok y) ls ys /\
    t = concat ys /\
    length <$> ys = length <$> ls.
Proof.
  rewrite <- map_result_concat. intros H. inv_bind H. injection H as <-.
  rename a into ys. exists ys.
  apply map_result_Forall2 in Ha.
  split; [exact Ha|]. split; [reflexivity|].
  induction Ha as [|l y ls ys Hly _ IH]; [reflexivity|].
  rewrite !fmap_cons, IH, (map_result_length _ _ _ Hly). reflexivity.
Qed.

(** Every array [pca], [tica] or [ae] returns for a list of series is the
    transform of its own series and of no other: array [i] holds the encoded
    rows of series [i], in order; with [whiten=True] each of these rows is
    divided by the column deviations of the whole transformed matrix. *)
Theorem each_series_transformed_alone {F model : Type} (K : Kernels F model)
    (l : list (ndarray F)) (B : positive) (whiten : bool) (out : output F) :
  api_returns K (Multiple l) B whiten out ->
  exists m t chunks,
    out = OutList chunks /\
    map_result (encode K m) (all_rows (Multiple l)) = Ok t /\
    Forall2
      (fun a c =>
         exists e,
           map_result (encode K m) (rows a) = Ok e /\
           c = if whiten
               then (fun r => zip_with (fdiv K) r (column_stds K t)) <$> e
               else e)
      l chunks.
Proof.
  intros H. apply api_returns_transform in H as (d0 & m & Hd & Ht).
  destruct (_transform_rows K _ _ _ _ _ _ Hd Ht) as (t & td & Htr & Hw & _ & ->).
  rewrite (transform_data_0 K m _ _ B Hd) in Htr.
  exists m, t, (split_at (shape0 <$> l) td).
  split; [reflexivity|]. split; [exact Htr|].
  unfold all_rows in Htr. simpl in Htr.
  apply map_result_concat_parts in Htr as (ys & Hys & -> & Hlen).
  rewrite <- list_fmap_compose in Hlen.
  change (length ∘ rows) with (@shape0 F) in Hlen. rewrite <- Hlen.
  apply Forall2_fmap_l in Hys.
  destruct whiten.
  - apply whiten_data_Ok in Hw as [_ ->].
    rewrite split_at_fmap, split_at_parts. apply Forall2_fmap_r.
    eapply Forall2_impl; [exact Hys|]. intros a e He. simpl. eauto.
  - subst td. rewrite split_at_parts.
    eapply Forall2_impl; [exact Hys|]. intros a e He. simpl. eauto.
Qed.

Lemma each_series_transformed_alone_witness :
  exists m t chunks,
    OutList [[[-5; -4]; [-3; -2]]; [[-1; 0]; [1; 2]; [3; 4]]]%Z = OutList chunks /\
    map_result (encode demo_kernels m) (all_rows demo_data) = Ok t /\
    Forall2
      (fun a c =>
         exists e,
           map_result (encode demo_kernels m) (rows a) = Ok e /\
           c = e)
      [demo_series_1; demo_series_2] chunks.
Proof.
  apply (each_series_transformed_alone demo_kernels [demo_series_1; demo_series_2]
           2%positive false).
  right. right. exists (Some 1), 1, 3, None, ∅, [], 2%Z, None.
  vm_compute. reflexivity.
Defined.

(** ** One array and a list of one array *)

Lemma create_dataset_single {F : Type} (a : ndarray F) (lag : nat) :
  create_dataset (Multiple [a]) lag = create_dataset (Single a) lag.
Proof. reflexivity. Qed.

Lemma _transform_single_list {F model : Type} (K : Kernels F model) (m : model)
    (a : ndarray F) (d0 : list (sample_pair F)) (B : positive) (whiten : bool) :
  create_dataset (Single a) 0 = Ok d0 ->
  _transform K m (Multiple [a]) d0 B whiten
  = (do o <- _transform K m (Single a) d0 B whiten; Ok (as_list o)).
Proof.
  intros Hd.
  destruct (_transform K m (Single a) d0 B whiten) as [o|e] eqn:Hs; simpl.
  - destruct (_transform_rows K _ _ _ _ _ _ Hd Hs) as (t & td & Htr & Hw & Hl & ->).
    unfold _transform. rewrite Htr. simpl.
    unfold lengths_of in Hl. simpl in Hl.
    destruct whiten; [rewrite Hw | subst td]; simpl;
      rewrite collect_chunks_split_at; simpl;
      rewrite take_ge by lia; reflexivity.
  - unfold _transform in *.
    destruct (if whiten then _ else _) as [td|e'];
      simpl in *; [discriminate | congruence].
Qed.

(** A single array and the list holding just that array are treated alike:
    [pca], [tica] and [ae] fit the same model with the same losses, fail with
    the same error, and the list call returns the one-element list of the
    array the single call returns. *)
Theorem single_is_list_of_one {F model : Type} (K : Kernels F model)
    (a : ndarray F) (dim : option nat) (lag : nat) (km sym : bool)
    (n_epochs : nat) (vs : option Q) (B : positive) (whiten : bool)
    (kwargs : gmap string pyval) (perm : list nat) :
  pca K (Multiple [a]) dim vs B whiten perm
    = listed (pca K (Single a) dim vs B whiten perm) /\
  tica K (Multiple [a]) dim lag km sym vs B whiten perm
    = listed (tica K (Single a) dim lag km sym vs B whiten perm) /\
  ae K (Multiple [a]) dim lag n_epochs vs B whiten kwargs perm
    = listed (ae K (Single a) dim lag n_epochs vs B whiten kwargs perm).
Proof.
  assert (Hend : forall (d0 : list (sample_pair F)) (m : model) trl tel,
             create_dataset (Single a) 0 = Ok d0 ->
             (do transformed_data <- _transform K m (Multiple [a]) d0 B whiten;
              Ok (transformed_data, trl, tel))
             = listed (do transformed_data <- _transform K m (Single a) d0 B whiten;
                       Ok (transformed_data, trl, tel))).
  { intros d0 m trl tel Hd. rewrite (_transform_single_list K m a d0 B whiten Hd).
    unfold listed. destruct (_transform K m (Single a) d0 B whiten); reflexivity. }
  unfold pca, tica, ae. rewrite !create_dataset_single.
  cbn [input_size bind].
  destruct (create_dataset (Single a) 0) as [d0|e] eqn:Hd; [|repeat split].
  cbn [bind].
  repeat split.
  - destruct (match vs with | Some f => _ | None => _ end) as [[trainl testl]|e];
      [cbn [bind] | reflexivity].
    destruct (fit_linear K PCA trainl dim testl) as [[[m trl] tel]|e];
      [cbn [bind] | reflexivity].
    apply Hend. reflexivity.
  - destruct (create_dataset (Single a) lag) as [dlag|e]; [cbn [bind] | reflexivity].
    destruct (match vs with | Some f => _ | None => _ end) as [[trainl testl]|e];
      [cbn [bind] | reflexivity].
    destruct (fit_linear K (TICA km sym) trainl dim testl) as [[[m trl] tel]|e];
      [cbn [bind] | reflexivity].
    apply Hend. reflexivity.
  - destruct (create_dataset (Single a) lag) as [dlag|e]; [cbn [bind] | reflexivity].
    destruct (match vs with | Some f => _ | None => _ end) as [[trainl testl]|e];
      [cbn [bind] | reflexivity].
    destruct (ae_new K (shape1 a) dim (ae_args kwargs)) as [m0|e];
      [cbn [bind] | reflexivity].
    destruct (fit_ae K m0 trainl n_epochs testl) as [[[m trl] tel]|e];
      [cbn [bind] | reflexivity].
    apply Hend. reflexivity.
Qed.

(** ** The order of failures *)

Lemma create_dataset_mismatch {F : Type} (data : pydata F) (lag : nat) :
  same_columns (series_of data) = false ->
  create_dataset data lag = Err ShapeMismatchError.
Proof. intros H. unfold create_dataset. rewrite H. reflexivity. Qed.

(** When the series disagree on their column count, [pca], [tica] and [ae]
    all fail with [ShapeMismatchError]: the dataset is built before the split,
    the model and the fit, so neither an invalid [validation_split] nor any
    failure of the model is reported instead. *)
Theorem shape_mismatch_reported_first {F model : Type} (K : Kernels F model)
    (data : pydata F) (dim : option nat) (lag : nat) (km sym : bool)
    (n_epochs : nat) (vs : option Q) (B : positive) (whiten : bool)
    (kwargs : gmap string pyval) (perm : list nat) :
  same_columns (series_of data) = false ->
  pca K data dim vs B whiten perm = Err ShapeMismatchError /\
  tica K data dim lag km sym vs B whiten perm = Err ShapeMismatchError /\
  ae K data dim lag n_epochs vs B whiten kwargs perm = Err ShapeMismatchError.
Proof.
  intros H. unfold pca, tica, ae.
  rewrite (create_dataset_mismatch data 0 H).
  repeat split.
  destruct data as [a|[|a l]]; simpl in H; try discriminate.
  reflexivity.
Qed.

Lemma shape_mismatch_reported_first_witness :
  pca demo_kernels
    (Multiple [demo_series_1; {| shape1 := 3; rows := [[1; 2; 3]]%Z |}])
    (Some 1) (Some (3 # 2)) 2%positive false [] = Err ShapeMismatchError /\
  tica demo_kernels
    (Multiple [demo_series_1; {| shape1 := 3; rows := [[1; 2; 3]]%Z |}])
    (Some 1) 1 true false (Some (3 # 2)) 2%positive false [] = Err ShapeMismatchError /\
  ae demo_kernels
    (Multiple [demo_series_1; {| shape1 := 3; rows := [[1; 2; 3]]%Z |}])
    (Some 1) 1 3 (Some (3 # 2)) 2%positive false ∅ [] = Err ShapeMismatchError.
Proof.
  apply (shape_mismatch_reported_first demo_kernels
           (Multiple [demo_series_1; {| shape1 := 3; rows := [[1; 2; 3]]%Z |}])).
  reflexivity.
Defined.

Lemma random_split_invalid {X : Type} (draws : list nat) (ds : list X) (f : Q) :
  valid_fraction f = false -> random_split draws ds f = Err InvalidFractionError.
Proof.
  intros H. unfold random_split, random_split_indices. rewrite H. reflexivity.
Qed.

(** When the dataset can be built and [validation_split] is a number outside
    (0, 1), [pca] and [tica] fail with [InvalidFractionError], and so does
    [ae] unless [data] is an empty list: the split comes before the model is
    constructed and fitted, so no failure of the autoencoder's constructor, of
    a fit or of a transform is reported instead, and nothing is fitted.  For
    an empty list [ae] has failed before, with [IndexError], when it reads the
    width of [data[0]]. *)
Theorem invalid_fraction_before_fit {F model : Type} (K : Kernels F model)
    (data : pydata F) (dim : option nat) (lag : nat) (km sym : bool)
    (n_epochs : nat) (f : Q) (B : positive) (whiten : bool)
    (kwargs : gmap string pyval) (perm : list nat) :
  same_columns (series_of data) = true ->
  valid_fraction f = false ->
  pca K data dim (Some f) B whiten perm = Err InvalidFractionError /\
  tica K data dim lag km sym (Some f) B whiten perm = Err InvalidFractionError /\
  (series_of data <> [] ->
   ae K data dim lag n_epochs (Some f) B whiten kwargs perm = Err InvalidFractionError) /\
  (series_of data = [] ->
   ae K data dim lag n_epochs (Some f) B whiten kwargs perm = Err IndexError).
Proof.
  intros Hc Hf. unfold pca, tica, ae, create_dataset. rewrite Hc. simpl.
  rewrite !(random_split_invalid _ _ _ Hf). simpl.
  repeat split.
  - intros Hne.
    destruct data as [a|[|a l]]; simpl in *; [reflexivity | congruence | reflexivity].
  - intros He.
    destruct data as [a|[|a l]]; simpl in *; [discriminate | reflexivity | discriminate].
Qed.

Lemma invalid_fraction_before_fit_witness :
  pca demo_kernels demo_data (Some 1) (Some (3 # 2)) 2%positive false []
    = Err InvalidFractionError /\
  tica demo_kernels demo_data (Some 1) 1 true false (Some (3 # 2)) 2%positive false []
    = Err InvalidFractionError /\
  ae demo_kernels demo_data (Some 1) 1 3 (Some (3 # 2)) 2%positive false ∅ []
    = Err InvalidFractionError /\
  ae demo_kernels (Multiple []) (Some 1) 1 3 (Some (3 # 2)) 2%positive false ∅ []
    = Err IndexError.
Proof.
  destruct (invalid_fraction_before_fit demo_kernels demo_data (Some 1) 1 true false 3
              (3 # 2) 2%positive false ∅ [] eq_refl eq_refl) as (Hp & Ht & Ha & _).
  destruct (invalid_fraction_before_fit demo_kernels (Multiple []) (Some 1) 1 true false 3
              (3 # 2) 2%positive false ∅ [] eq_refl eq_refl) as (_ & _ & _ & He).
  split; [exact Hp|]. split; [exact Ht|].
  split; [apply Ha; discriminate | apply He; reflexivity].
Defined.

(** ** More on the keyword dictionary *)

Lemma ae_args_fields (kwargs : gmap string pyval) (k : string) :
  k ∈ ae_field_names ->
  ae_args kwargs !! k = config_to_dict (ae_config_of kwargs) !! k.
Proof.
  intros Hk. rewrite ae_args_lookup.
  unfold ae_field_names in Hk.
  repeat (apply elem_of_cons in Hk as [->|Hk];
          [unfold config_to_dict, ae_config_of, override; simpl;
           match goal with |- context [kwargs !! ?k] => destruct (kwargs !! k) end;
           reflexivity|]).
  apply elem_of_nil in Hk. destruct Hk.
Qed.

Lemma config_to_dict_dom (c : ae_config) :
  dom (config_to_dict c) = list_to_set ae_field_names.
Proof. unfold config_to_dict. rewrite dom_list_to_map_L. reflexivity. Qed.

(** Passing a documented default explicitly changes nothing: if the caller
    adds a keyword that is absent from [kwargs] with the very value the
    defaults give it, the merged dictionary is the same, and so is everything
    [ae] returns. *)
Theorem explicit_default_changes_nothing {F model : Type} (K : Kernels F model)
    (k : string) (v : pyval) (kwargs : gmap string pyval) :
  ae_defaults !! k = Some v ->
  kwargs !! k = None ->
  ae_args (<[k := v]> kwargs) = ae_args kwargs /\
  forall data dim lag n_epochs vs B whiten perm,
    ae K data dim lag n_epochs vs B whiten (<[k := v]> kwargs) perm
    = ae K data dim lag n_epochs vs B whiten kwargs perm.
Proof.
  intros Hd Hk.
  assert (E : ae_args (<[k := v]> kwargs) = ae_args kwargs).
  { apply map_eq. intros k'. rewrite !ae_args_lookup.
    destruct (decide (k = k')) as [<-|Hne].
    - rewrite lookup_insert_eq, Hk, Hd. reflexivity.
    - rewrite lookup_insert_ne by exact Hne. reflexivity. }
  split; [exact E|].
  intros. unfold ae. rewrite E. reflexivity.
Qed.

Lemma explicit_default_changes_nothing_witness :
  ae_args (<["bias" := PyBool true]> {[ "lr" := PyFloat (1 # 100) ]})
  = ae_args {[ "lr" := PyFloat (1 # 100) ]}.
Proof.
  assert (Hd : ae_defaults !! "bias" = Some (PyBool true)) by reflexivity.
  assert (Hk : ({[ "lr" := PyFloat (1 # 100) ]} : gmap string pyval) !! "bias" = None)
    by (vm_compute; reflexivity).
  apply (proj1 (explicit_default_changes_nothing demo_kernels "bias" (PyBool true)
                  {[ "lr" := PyFloat (1 # 100) ]} Hd Hk)).
Defined.

(** The dictionary merge of [ae] gives the same configuration as a
    field-by-field override of the eight documented fields exactly when the
    caller supplies no keyword outside those eight. *)
Theorem dict_merge_is_field_override_iff (kwargs : gmap string pyval) :
  ae_args kwargs = config_to_dict (ae_config_of kwargs)
  <-> dom kwargs ⊆ (list_to_set ae_field_names : gset string).
Proof.
  split.
  - intros E. apply (f_equal dom) in E.
    unfold ae_args in E. rewrite dom_union_L, ae_defaults_dom, config_to_dict_dom in E.
    rewrite <- E. apply union_subseteq_l.
  - intros Hsub. apply map_eq. intros k.
    destruct (decide (k ∈ ae_field_names)) as [Hk|Hk]; [apply ae_args_fields, Hk|].
    assert (Hnot : k ∉ (list_to_set ae_field_names : gset string))
      by (rewrite elem_of_list_to_set; exact Hk).
    rewrite ae_args_lookup.
    assert (kwargs !! k = None) as -> by (apply not_elem_of_dom; set_solver).
    assert (ae_defaults !! k = None) as ->
      by (apply not_elem_of_dom; rewrite ae_defaults_dom; exact Hnot).
    symmetry. apply not_elem_of_dom. rewrite config_to_dict_dom. exact Hnot.
Qed.

Lemma dict_merge_is_field_override_iff_witness :
  ae_args {[ "lr" := PyFloat (1 # 100) ]}
  = config_to_dict (ae_config_of {[ "lr" := PyFloat (1 # 100) ]}).
Proof.
  apply (proj2 (dict_merge_is_field_override_iff {[ "lr" := PyFloat (1 # 100) ]})).
  apply (bool_decide_unpack _). vm_compute. exact I.
Defined.

(** ** Losses and the two switches *)

Lemma fit_linear_test_loss {F model : Type} (K : Kernels F model) est ld dim testl
    (m : model) (trl : F) (tel : option F) :
  fit_linear K est ld dim testl = Ok (m, trl, tel) -> (tel = None <-> testl = None).
Proof.
  unfold fit_linear. intros H. inv_bind H. destruct a as [m' trl'].
  injection H as _ _ <-. destruct testl; simpl; split; congruence.
Qed.

Lemma fit_ae_test_loss {F model : Type} (K : Kernels F model) m0 ld n testl
    (m : model) (trl : F) (tel : option F) :
  fit_ae K m0 ld n testl = Ok (m, trl, tel) -> (tel = None <-> testl = None).
Proof.
  unfold fit_ae. intros H. inv_bind H. destruct a as [m' ls].
  injection H as _ _ <-. destruct testl; simpl; split; congruence.
Qed.

Lemma split_loaders_test {X : Type} (ds : list X) vs B perm trainl testl :
  split_loaders ds vs B perm = Ok (trainl, testl) -> (testl = None <-> vs = None).
Proof.
  unfold split_loaders. destruct vs as [f|]; intros H.
  - inv_bind H. destruct a as [dtest dtrain]. injection H as _ <-.
    split; congruence.
  - injection H as _ <-. split; reflexivity.
Qed.

(** A successful call of [pca], [tica] or [ae] reports a validation loss
    exactly when a [validation_split] was given: [test_loss] is absent if and
    only if [validation_split] is. *)
Theorem test_loss_iff_split {F model : Type} (K : Kernels F model)
    (data : pydata F) (dim : option nat) (vs : option Q) (B : positive)
    (whiten : bool) (perm : list nat) (out : output F) (trl : F) (tel : option F) :
  (pca K data dim vs B whiten perm = Ok (out, trl, tel) ->
   (tel = None <-> vs = None)) /\
  (forall lag km sym,
      tica K data dim lag km sym vs B whiten perm = Ok (out, trl, tel) ->
      (tel = None <-> vs = None)) /\
  (forall lag n_epochs kwargs,
      ae K data dim lag n_epochs vs B whiten kwargs perm = Ok (out, trl, tel) ->
      (tel = None <-> vs = None)).
Proof.
  split; [|split].
  - intros H. apply pca_Ok in H as (d0 & trainl & testl & m & _ & Hs & Hf & _).
    rewrite (fit_linear_test_loss _ _ _ _ _ _ _ _ Hf). apply (split_loaders_test _ _ _ _ _ _ Hs).
  - intros lag km sym H.
    apply tica_Ok in H as (d0 & dlag & trainl & testl & m & _ & _ & Hs & Hf & _).
    rewrite (fit_linear_test_loss _ _ _ _ _ _ _ _ Hf). apply (split_loaders_test _ _ _ _ _ _ Hs).
  - intros lag n kw H.
    apply ae_Ok in H as (sz & d0 & dlag & trainl & testl & m0 & m & _ & _ & _ & Hs & _ & Hf & _).
    rewrite (fit_ae_test_loss _ _ _ _ _ _ _ _ Hf). apply (split_loaders_test _ _ _ _ _ _ Hs).
Qed.

Lemma test_loss_iff_split_witness :
  Some (-5)%Z = None <-> Some (2 # 5) = None.
Proof.
  apply (proj1 (test_loss_iff_split demo_kernels demo_data (Some 1) (Some (2 # 5))
                  2%positive false [3; 1; 4; 0; 2]
                  (OutList [[[-14; -13]; [-12; -11]]; [[-10; -9]; [-8; -7]; [-6; -5]]]%Z)
                  (-15)%Z (Some (-5)%Z))).
  vm_compute. reflexivity.
Defined.

Lemma _transform_unwhitened {F model : Type} (K : Kernels F model) (m : model)
    (data : pydata F) (d0 : list (sample_pair F)) (B : positive) (out : output F) :
  create_dataset data 0 = Ok d0 ->
  _transform K m data d0 B true = Ok out ->
  exists out',
    _transform K m data d0 B false = Ok out' /\
    whiten_data K (output_rows out') = Ok (output_rows out).
Proof.
  intros Hd Ht.
  destruct (_transform_rows K _ _ _ _ _ _ Hd Ht) as (t & td & Htr & Hw & Hl & ->).
  assert (Hlt : length t = sum_list (lengths_of data)).
  { rewrite <- (create_dataset_0_length _ _ Hd).
    apply transform_length in Htr. exact Htr. }
  exists (reassemble data t). split.
  - unfold _transform. rewrite Htr. simpl.
    destruct data; simpl; [reflexivity | rewrite collect_chunks_split_at; reflexivity].
  - rewrite (reassemble_rows _ _ Hl), (reassemble_rows _ _ Hlt). exact Hw.
Qed.

(** [whiten] is pure post-processing.  If a call of [pca], [tica] or [ae]
    succeeds with [whiten=True], the same call with [whiten=False] succeeds
    too, with the same losses, and the whitened rows returned are the
    whitening of the rows the unwhitened call returns. *)
Theorem whiten_is_post_processing {F model : Type} (K : Kernels F model)
    (data : pydata F) (dim : option nat) (vs : option Q) (B : positive)
    (perm : list nat) (out : output F) (trl : F) (tel : option F) :
  (pca K data dim vs B true perm = Ok (out, trl, tel) ->
   exists out',
     pca K data dim vs B false perm = Ok (out', trl, tel) /\
     whiten_data K (output_rows out') = Ok (output_rows out)) /\
  (forall lag km sym,
      tica K data dim lag km sym vs B true perm = Ok (out, trl, tel) ->
      exists out',
        tica K data dim lag km sym vs B false perm = Ok (out', trl, tel) /\
        whiten_data K (output_rows out') = Ok (output_rows out)) /\
  (forall lag n_epochs kwargs,
      ae K data dim lag n_epochs vs B true kwargs perm = Ok (out, trl, tel) ->
      exists out',
        ae K data dim lag n_epochs vs B false kwargs perm = Ok (out', trl, tel) /\
        whiten_data K (output_rows out') = Ok (output_rows out)).
Proof.
  split; [|split].
  - intros H. apply pca_Ok in H as (d0 & trainl & testl & m & Hd & Hs & Hf & Ht).
    destruct (_transform_unwhitened K m data d0 B out Hd Ht) as (out' & Ht' & Hw).
    exists out'. split; [|exact Hw].
    unfold pca. rewrite Hd. cbn [bind].
    unfold split_loaders in Hs. rewrite Hs. cbn [bind].
    rewrite Hf. cbn [bind]. rewrite Ht'. reflexivity.
  - intros lag km sym H.
    apply tica_Ok in H as (d0 & dlag & trainl & testl & m & Hd & Hl & Hs & Hf & Ht).
    destruct (_transform_unwhitened K m data d0 B out Hd Ht) as (out' & Ht' & Hw).
    exists out'. split; [|exact Hw].
    unfold tica. rewrite Hd, Hl. cbn [bind].
    unfold split_loaders in Hs. rewrite Hs. cbn [bind].
    rewrite Hf. cbn [bind]. rewrite Ht'. reflexivity.
  - intros lag n kw H.
    apply ae_Ok in H
      as (sz & d0 & dlag & trainl & testl & m0 & m & Hsz & Hd & Hl & Hs & Hn & Hf & Ht).
    destruct (_transform_unwhitened K m data d0 B out Hd Ht) as (out' & Ht' & Hw).
    exists out'. split; [|exact Hw].
    unfold ae. rewrite Hsz, Hd, Hl. cbn [bind].
    unfold split_loaders in Hs. rewrite Hs. cbn [bind].
    rewrite Hn. cbn [bind]. rewrite Hf. cbn [bind]. rewrite Ht'. reflexivity.
Qed.

Lemma whiten_is_post_processing_witness :
  exists out',
    ae demo_kernels demo_data (Some 1) 1 3 None 2%positive false ∅ []
      = Ok (out', 2%Z, None) /\
    whiten_data demo_kernels (output_rows out')
      = Ok (output_rows (OutList [[[-1; -1]; [-1; -1]]; [[-1; 0]; [0; 0]; [0; 1]]]%Z)).
Proof.
  apply (proj2 (proj2 (whiten_is_post_processing demo_kernels demo_data (Some 1) None
                         2%positive []
                         (OutList [[[-1; -1]; [-1; -1]]; [[-1; 0]; [0; 0]; [0; 1]]]%Z)
                         2%Z None)) 1 3 ∅).
  vm_compute. reflexivity.
Defined.
